(** * hoomd_polymers.base.system : the [System] base class

    A shallow embedding of [src/hoomd_polymers/base/system.py] and the
    properties of box sizing, force-field application and the typed-state
    accessors.

    Number model.  Python floats are idealised as real numbers: [+], [*],
    [/] and [**] are the exact operations, and float equality is equality
    of reals.  What Python does outside the reals is kept: division by
    zero raises [ZeroDivisionError], and a negative base under a fractional
    exponent gives a complex number, which is a value like any other and
    is stored like any other. *)

From Stdlib Require Import Reals Lra Lia List ZArith Bool String.
From stdpp Require Import base list.
Import ListNotations.

Open Scope R_scope.

(** ** Outcomes of Python calls *)

Inductive Exn : Type :=
| ValueError (msg : string)
| RecursionError
| IndexError
| ZeroDivisionError
| TypeError
| External (msg : string).

Inductive outcome (A : Type) : Type :=
| Ok (a : A)
| Raise (e : Exn).
Arguments Ok {A} a.
Arguments Raise {A} e.

Definition obind {A B} (m : outcome A) (k : A -> outcome B) : outcome B :=
  match m with
  | Ok a => k a
  | Raise e => Raise e
  end.

Notation "'do' x <- m ; k" := (obind m (fun x => k))
  (at level 10, x name, m at level 100, k at level 200).

(** What the process prints and what it hands to [warnings.warn]. *)
Inductive Event : Type :=
| Printed (msg : string)
| Warned (msg : string).

(** ** Float operations, over the reals *)

Definition Reqb (x y : R) : bool := if Req_dec_T x y then true else false.

Definition Rltb (x y : R) : bool := if Rlt_dec x y then true else false.

(** [x / y] on Python floats. *)
Definition float_div (x y : R) : outcome R :=
  if Reqb y 0 then Raise ZeroDivisionError else Ok (x / y).

(** A number a box length can be: a float, or the complex number Python
    gives for a negative base under a fractional exponent. *)
Inductive pynum : Type :=
| PyFloat (r : R)
| PyComplex (re im : R).

(** [x ** y] on Python floats, for a positive fractional exponent [y]
    ([1/3] and [1/2] in the source).  A negative base does not raise: the
    result is the complex number of modulus [(-x) ** y] and argument
    [pi * y]. *)
Definition float_pow (x y : R) : pynum :=
  if Rltb x 0 then
    PyComplex (Rpower (- x) y * cos (PI * y)) (Rpower (- x) y * sin (PI * y))
  else if Reqb x 0 then PyFloat 0
  else PyFloat (Rpower x y).

(** [z * k] for a float [k]. *)
Definition num_scale (z : pynum) (k : R) : pynum :=
  match z with
  | PyFloat r => PyFloat (r * k)
  | PyComplex re im => PyComplex (re * k) (im * k)
  end.

Definition is_complex (z : pynum) : bool :=
  match z with
  | PyFloat _ => false
  | PyComplex _ _ => true
  end.

Definition to_complex (z : pynum) : pynum :=
  match z with
  | PyFloat r => PyComplex r 0
  | PyComplex re im => PyComplex re im
  end.

(** [np.array([Lx, Ly, Lz])]: one complex entry makes the array, and so
    every entry, complex. *)
Definition np_array3 (a b c : pynum) : pynum * pynum * pynum :=
  if is_complex a || is_complex b || is_complex c
  then (to_complex a, to_complex b, to_complex c)
  else (a, b, c).

(** Unit conversions of the source. *)
Definition amu_to_g : R := 1.66054e-24.
Definition nm_to_cm : R := 1e-7.
Definition cm_to_nm : R := 1e7.

(** ** Box sizing *)

Module BoxSizer.

(** [vol] of [_calculate_L], in cm^3. *)
Definition volume (mass density : R) : R := mass * amu_to_g / density.

(** [np.prod(fixed_L)]. *)
Definition prod (l : list R) : R := fold_right Rmult 1 l.

(** [System._calculate_L], with [self.mass] and [self.density] passed in.
    [fixed_L = None] is the call without argument. *)
Definition _calculate_L (mass density : R) (fixed_L : option (list R))
  : outcome pynum :=
  let M := mass * amu_to_g in
  do vol <- float_div M density ;
  do L <- match fixed_L with
          | None => Ok (float_pow vol (1 / 3))
          | Some fl =>
              do L <- float_div vol (prod fl) ;
              if (length fl =? 1)%nat then Ok (float_pow L (1 / 2))
              else Ok (PyFloat L)
          end ;
  Ok (num_scale L cm_to_nm).

(** Python truthiness of a constraint argument: [None] and [0] are falsy. *)
Definition truthy (c : option R) : bool :=
  match c with
  | None => false
  | Some v => negb (Reqb v 0)
  end.

(** [constraints[np.where(constraints != None)]]: the supplied entries, in
    order, as a fresh array. *)
Definition not_none (cs : list (option R)) : list R :=
  omap (fun c => c) cs.

(** [constraints[np.where(constraints == None)] = L]. *)
Definition fill_none (L : pynum) (c : option R) : pynum :=
  match c with
  | None => L
  | Some v => PyFloat v
  end.

(** The value [target_box] receives in [System.set_target_box]. *)
Definition target_box_of (mass density : R)
    (x_constraint y_constraint z_constraint : option R)
  : outcome (pynum * pynum * pynum) :=
  if negb (truthy x_constraint || truthy y_constraint || truthy z_constraint)
  then
    do L <- _calculate_L mass density None ;
    Ok (np_array3 L L L)
  else
    let constraints := [x_constraint; y_constraint; z_constraint] in
    let fixed_L := map (fun v => v * nm_to_cm) (not_none constraints) in
    if (length fixed_L =? 3)%nat then
      (* no entry is None: the array is a float64 array, whose arithmetic
         does not raise, and the length computed is assigned to no entry *)
      do _vol <- float_div (mass * amu_to_g) density ;
      Ok (np_array3 (fill_none (PyFloat 0) x_constraint)
            (fill_none (PyFloat 0) y_constraint)
            (fill_none (PyFloat 0) z_constraint))
    else
      do L <- _calculate_L mass density (Some fixed_L) ;
      Ok (np_array3 (fill_none L x_constraint) (fill_none L y_constraint)
            (fill_none L z_constraint)).

End BoxSizer.

(** ** The typed structure returned by [forcefield.apply]

    The typed system is a mutable object whose atoms refer to one another
    through [bond_partners].  Its atom list is the store: an atom reference
    is the position of the atom in [atoms], so a write through one
    reference is seen through every other. *)

Module Typed.

Record Atom : Type := mkAtom {
  atomic_number : Z;
  mass : R;
  charge : R;
  bond_partners : list nat
}.

(** Modelled from the spec: the [element] attribute of an atom of the typed
    structure (external typing engine) is its atomic number. *)
Definition element (a : Atom) : Z := atomic_number a.

Definition set_atomic_number (z : Z) (a : Atom) : Atom :=
  mkAtom z (mass a) (charge a) (bond_partners a).

Definition set_mass (m : R) (a : Atom) : Atom :=
  mkAtom (atomic_number a) m (charge a) (bond_partners a).

Definition set_charge (q : R) (a : Atom) : Atom :=
  mkAtom (atomic_number a) (mass a) q (bond_partners a).

Record Structure : Type := mkStructure {
  atoms : list Atom
}.

(** [[a for a in atoms if p(a)]]: the references of the selected atoms, in
    the order of the atom list. *)
Fixpoint select_from (p : Atom -> bool) (i : nat) (l : list Atom) : list nat :=
  match l with
  | [] => []
  | a :: r =>
      if p a then i :: select_from p (S i) r else select_from p (S i) r
  end.

Definition select (p : Atom -> bool) (l : list Atom) : list nat :=
  select_from p 0 l.

Definition by_element (a : Atom) : bool := (element a =? 1)%Z.
Definition by_mass (a : Atom) : bool := Reqb (mass a) 1.008.
Definition is_stripped (a : Atom) : bool := (atomic_number a =? 1)%Z.

(** The loop [for h in hydrogens: ...] of [apply_forcefield].  It returns
    the store as the loop leaves it, also when [h.bond_partners[0]]
    raises. *)
Fixpoint merge_hydrogens (hydrogens : list nat) (l : list Atom)
  : outcome unit * list Atom :=
  match hydrogens with
  | [] => (Ok tt, l)
  | h :: hs =>
      let l1 := alter (set_atomic_number 1) h l in
      match l1 !! h with
      | None => (Raise (External "dangling atom reference"), l1)
      | Some ah =>
          match bond_partners ah with
          | [] => (Raise IndexError, l1)
          | bonded_atom :: _ =>
              let l2 := alter (fun b => set_mass (mass b + mass ah) b)
                              bonded_atom l1 in
              let hq := from_option charge 0 (l2 !! h) in
              let l3 := alter (fun b => set_charge (charge b + hq) b)
                              bonded_atom l2 in
              merge_hydrogens hs l3
          end
      end
  end.

(** The position an atom reference has after the atoms flagged in [mask]
    are deleted. *)
Definition renumber (mask : list bool) (i : nat) : nat :=
  (i - length (List.filter (fun m : bool => m) (take i mask)))%nat.

Definition keep_partner (mask : list bool) (i : nat) : bool :=
  negb (default false (mask !! i)).

Fixpoint strip_with (full : list bool) (mask : list bool) (l : list Atom)
  : list Atom :=
  match mask, l with
  | m :: ms, a :: r =>
      if m then strip_with full ms r
      else mkAtom (atomic_number a) (mass a) (charge a)
             (map (renumber full) (List.filter (keep_partner full)
                                     (bond_partners a)))
           :: strip_with full ms r
  | _, _ => []
  end.

(** [Structure.strip(mask)] of the external structure class: the flagged
    atoms are deleted, with the bonds they take part in; the other atoms
    keep their order, mass, charge and atomic number. *)
Definition strip (mask : list bool) (l : list Atom) : list Atom :=
  strip_with mask mask l.

Definition removing_msg : string :=
  "Removing hydrogen atoms and adjusting heavy atoms".

Definition not_found_msg : string :=
  "Hydrogen atoms could not be found by element or mass".

(** The two list comprehensions that bind [hydrogens], with the warning
    of the inner [if]. *)
Definition identify_hydrogens (l : list Atom) : list nat * list Event :=
  let hydrogens := select by_element l in
  if (length hydrogens =? 0)%nat then
    let hydrogens := select by_mass l in
    if (length hydrogens =? 0)%nat
    then (hydrogens, [Warned not_found_msg])
    else (hydrogens, [])
  else (hydrogens, []).

(** The [if remove_hydrogens:] block. *)
Definition remove_hydrogens_step (l : list Atom)
  : outcome unit * list Atom * list Event :=
  let '(hydrogens, warned) := identify_hydrogens l in
  let ev := Printed removing_msg :: warned in
  match merge_hydrogens hydrogens l with
  | (Ok _, l') => (Ok tt, strip (map is_stripped l') l', ev)
  | (Raise e, l') => (Raise e, l', ev)
  end.

(** The first bond partner of the atom [h] is an atom of the structure
    that is not one of [hydrogens]. *)
Definition first_partner_heavy (l : list Atom) (hydrogens : list nat)
    (h : nat) : bool :=
  match l !! h with
  | Some a =>
      match bond_partners a with
      | b :: _ => (b <? length l)%nat && negb (bool_decide (b ∈ hydrogens))
      | [] => false
      end
  | None => false
  end.

(** Every identified hydrogen is bonded first to a heavy atom. *)
Definition hydrogens_on_heavy (l : list Atom) : bool :=
  let hydrogens := fst (identify_hydrogens l) in
  forallb (first_partner_heavy l hydrogens) hydrogens.

(** The [if remove_charges:] loop. *)
Definition remove_charges_step (l : list Atom) : list Atom :=
  map (set_charge 0) l.

(** The loop [for idx, charge in enumerate(new_charges)]. *)
Fixpoint write_charges (idx : nat) (new_charges : list R) (l : list Atom)
  : outcome unit * list Atom :=
  match new_charges with
  | [] => (Ok tt, l)
  | c :: cs =>
      if (idx <? length l)%nat
      then write_charges (S idx) cs (alter (set_charge c) idx l)
      else (Raise IndexError, l)
  end.

Definition total (f : Atom -> R) (l : list Atom) : R :=
  fold_right Rplus 0 (map f l).

End Typed.

(** ** The [System] class *)

Module System.

(** An element of [self.molecules]. *)
Record Mol : Type := mkMol {
  n_particles : Z;
  mol_mass : R
}.

(** An instance of the [Molecule] class, read through its [molecules]
    attribute only. *)
Record Molecule : Type := mkMolecule {
  molecule_molecules : list Mol
}.

(** The [molecule] argument of the constructor.  An item of a list is
    given by what iterating over it yields, [None] for an item that is not
    iterable. *)
Inductive MoleculeInput : Type :=
| InList (items : list (option (list Mol)))
| InMolecule (m : Molecule)
| InOther (repr : string).

Section Collaborators.

(** External types: the assembled compound, the connectivity topology,
    the snapshot, the force-field object list, the reference values and
    the unit system. *)
Variables Compound Topology Snapshot HoomdForcefield RefValues Units : Type.

Record t : Type := mkSystem {
  density : R;
  r_cut : R;
  auto_scale : bool;
  base_units : option Units;
  target_box : option (pynum * pynum * pynum);
  typed_system : option Typed.Structure;
  _hoomd_objects : option (Snapshot * HoomdForcefield);
  _reference_values : option RefValues;
  force_field : option string;
  molecules : list Mol;
  system : option Compound;
  gmso_system : option Topology;
  (** not an attribute: the output and warning channels of the process *)
  events : list Event
}.

Definition set_target_box_attr (v : option (pynum * pynum * pynum))
    (s : t) : t :=
  mkSystem (density s) (r_cut s) (auto_scale s) (base_units s) v
    (typed_system s) (_hoomd_objects s) (_reference_values s)
    (force_field s) (molecules s) (system s) (gmso_system s) (events s).

Definition set_typed_system (v : option Typed.Structure) (s : t) : t :=
  mkSystem (density s) (r_cut s) (auto_scale s) (base_units s)
    (target_box s) v (_hoomd_objects s) (_reference_values s)
    (force_field s) (molecules s) (system s) (gmso_system s) (events s).

Definition set_hoomd_objects (v : option (Snapshot * HoomdForcefield))
    (s : t) : t :=
  mkSystem (density s) (r_cut s) (auto_scale s) (base_units s)
    (target_box s) (typed_system s) v (_reference_values s)
    (force_field s) (molecules s) (system s) (gmso_system s) (events s).

Definition set_reference_values (v : option RefValues) (s : t) : t :=
  mkSystem (density s) (r_cut s) (auto_scale s) (base_units s)
    (target_box s) (typed_system s) (_hoomd_objects s) v
    (force_field s) (molecules s) (system s) (gmso_system s) (events s).

Definition set_molecules (v : list Mol) (s : t) : t :=
  mkSystem (density s) (r_cut s) (auto_scale s) (base_units s)
    (target_box s) (typed_system s) (_hoomd_objects s) (_reference_values s)
    (force_field s) v (system s) (gmso_system s) (events s).

Definition set_system (v : option Compound) (s : t) : t :=
  mkSystem (density s) (r_cut s) (auto_scale s) (base_units s)
    (target_box s) (typed_system s) (_hoomd_objects s) (_reference_values s)
    (force_field s) (molecules s) v (gmso_system s) (events s).

Definition set_gmso_system (v : option Topology) (s : t) : t :=
  mkSystem (density s) (r_cut s) (auto_scale s) (base_units s)
    (target_box s) (typed_system s) (_hoomd_objects s) (_reference_values s)
    (force_field s) (molecules s) (system s) v (events s).

Definition add_events (ev : list Event) (s : t) : t :=
  mkSystem (density s) (r_cut s) (auto_scale s) (base_units s)
    (target_box s) (typed_system s) (_hoomd_objects s) (_reference_values s)
    (force_field s) (molecules s) (system s) (gmso_system s)
    (events s ++ ev).

(** *** Methods run on the object: a state and exception monad.  A raise
    keeps the attributes as the statements before it left them. *)

Definition M (A : Type) : Type := t -> outcome A * t.

Definition ret {A} (a : A) : M A := fun s => (Ok a, s).

Definition bind {A B} (m : M A) (k : A -> M B) : M B :=
  fun s =>
    match m s with
    | (Ok a, s') => k a s'
    | (Raise e, s') => (Raise e, s')
    end.

Definition lift {A} (o : outcome A) : M A := fun s => (o, s).

Definition get : M t := fun s => (Ok s, s).

Definition modify (f : t -> t) : M unit := fun s => (Ok tt, f s).

Definition when (b : bool) (m : M unit) : M unit :=
  if b then m else ret tt.

Notation "'step' x <- m ; k" := (bind m (fun x => k))
  (at level 10, x name, m at level 100, k at level 200).
Notation "'run' m ; k" := (bind m (fun _ => k))
  (at level 10, m at level 100, k at level 200).

(** *** External collaborators *)

Variable compound_mass : Compound -> R.
(** the abstract method, given by the subclass *)
Variable _build_system : t -> outcome (option Compound).
Variable from_mbuild : option Compound -> outcome Topology.
Variable identify_connections : Topology -> outcome Topology.
Variable to_gsd_snapshot :
  option Topology -> bool -> option Units -> outcome (Snapshot * RefValues).
Variable create_hoomd_forcefield :
  Typed.Structure -> R -> bool ->
  outcome (Snapshot * HoomdForcefield * RefValues).
(** [hoomd_polymers.utils.scale_charges(charges, n_particles)] *)
Variable scale_charges : list R -> nat -> list R.
(** truth value of a force-field object *)
Variable forcefield_truthy : HoomdForcefield -> bool.

(** *** Construction *)

(** [for mol_list in molecule: self.molecules.extend(mol_list)] *)
Fixpoint extend_all (acc : list Mol) (items : list (option (list Mol)))
  : outcome (list Mol) :=
  match items with
  | [] => Ok acc
  | None :: _ => Raise TypeError
  | Some mol_list :: rest => extend_all (acc ++ mol_list) rest
  end.

Definition _convert_to_gmso (s : t) : outcome Topology :=
  do topology <- from_mbuild (system s) ;
  identify_connections topology.

Definition _create_hoomd_snapshot (s : t) : outcome Snapshot :=
  do r <- to_gsd_snapshot (gmso_system s) (auto_scale s) (base_units s) ;
  Ok (fst r).

Definition __init__ (molecule : MoleculeInput) (ff : option string)
    (density0 r_cut0 : R) (auto_scale0 : bool) (base_units0 : option Units)
  : outcome t :=
  let self := mkSystem density0 r_cut0 auto_scale0 base_units0
                None None None None None [] None None [] in
  do mols <- match molecule with
             | InList items => extend_all (molecules self) items
             | InMolecule m => Ok (molecule_molecules m)
             | InOther _ => Ok (molecules self)
             end ;
  let self := set_molecules mols self in
  do sys <- _build_system self ;
  let self := set_system sys self in
  do top <- _convert_to_gmso self ;
  let self := set_gmso_system (Some top) self in
  do _snap <- _create_hoomd_snapshot self ;
  Ok self.

(** *** Properties *)

Definition n_molecules (s : t) : Z := Z.of_nat (length (molecules s)).

Definition sum_n_particles (s : t) : Z :=
  fold_right Z.add 0%Z (map n_particles (molecules s)).

Definition mass (s : t) : R :=
  match system s with
  | None => fold_right Rplus 0 (map mol_mass (molecules s))
  | Some c => compound_mass c
  end.

Definition snapshot_msg : string :=
  "The hoomd snapshot has not yet been created. Create a Hoomd snapshot and forcefield by applying a forcefield using System.apply_forcefield().".

Definition forcefield_msg : string :=
  "The hoomd forcefield has not yet been created. Create a Hoomd snapshot and forcefield by applying a forcefield using System.apply_forcefield().".

Definition hoomd_snapshot (s : t) : outcome Snapshot :=
  match _hoomd_objects s with
  | None => Raise (ValueError snapshot_msg)
  | Some objs => Ok (fst objs)
  end.

(** The getter reads [self.hoomd_forcefield], that is itself, in its
    condition and in its [else] branch.  [depth] is the number of frames
    the interpreter still allows. *)
Fixpoint hoomd_forcefield (depth : nat) (s : t) : outcome HoomdForcefield :=
  match depth with
  | O => Raise RecursionError
  | S d =>
      do v <- hoomd_forcefield d s ;
      if negb (forcefield_truthy v) then Raise (ValueError forcefield_msg)
      else hoomd_forcefield d s
  end.

(** *** [apply_forcefield] *)

(** A statement that mutates the atoms of [self.typed_system]. *)
Definition on_atoms (f : list Typed.Atom -> outcome unit * list Typed.Atom)
  : M unit :=
  fun s =>
    match typed_system s with
    | None => (Raise (External "typed_system is None"), s)
    | Some ts =>
        let '(o, l) := f (Typed.atoms ts) in
        (o, set_typed_system (Some (Typed.mkStructure l)) s)
    end.

Definition remove_hydrogens_stmt : M unit :=
  fun s =>
    match typed_system s with
    | None => (Raise (External "typed_system is None"), s)
    | Some ts =>
        let '(o, l, ev) := Typed.remove_hydrogens_step (Typed.atoms ts) in
        (o, add_events ev (set_typed_system (Some (Typed.mkStructure l)) s))
    end.

Definition neutralize (l : list Typed.Atom)
  : outcome unit * list Typed.Atom :=
  let new_charges := scale_charges (map Typed.charge l) (length l) in
  Typed.write_charges 0 new_charges l.

Definition apply_forcefield
    (forcefield : option Compound -> bool -> outcome Typed.Structure)
    (remove_hydrogens scale_parameters remove_charges
       make_charge_neutral : bool) (r_cut0 : R) : M unit :=
  step self <- get ;
  let use_residue_map := (length (molecules self) =? 1)%nat in
  step ts <- lift (forcefield (system self) use_residue_map) ;
  run modify (set_typed_system (Some ts)) ;
  run when remove_hydrogens remove_hydrogens_stmt ;
  run when remove_charges
         (on_atoms (fun l => (Ok tt, Typed.remove_charges_step l))) ;
  run when (make_charge_neutral && negb remove_charges)
         (run modify (add_events
                  [Printed "Adjust charges to make system charge neutral"]) ;
          on_atoms neutralize) ;
  step self <- get ;
  step r <- lift (match typed_system self with
                  | None => Raise (External "typed_system is None")
                  | Some ts => create_hoomd_forcefield ts r_cut0
                                 scale_parameters
                  end) ;
  let '(init_snap, hoomd_ff, refs) := r in
  run modify (set_hoomd_objects (Some (init_snap, hoomd_ff))) ;
  modify (set_reference_values (Some refs)).

(** *** Box sizing *)

Definition _calculate_L (s : t) (fixed_L : option (list R))
  : outcome pynum :=
  BoxSizer._calculate_L (mass s) (density s) fixed_L.

Definition set_target_box (x_constraint y_constraint z_constraint : option R)
  : M unit :=
  step self <- get ;
  step box <- lift (BoxSizer.target_box_of (mass self) (density self)
                      x_constraint y_constraint z_constraint) ;
  modify (set_target_box_attr (Some box)).

(** *** The lifetime of an object: construction, then any calls of
    [apply_forcefield] and [set_target_box], whether they return or
    raise. *)
Inductive reachable : t -> Prop :=
| reach_init molecule ff d rc a bu s :
    __init__ molecule ff d rc a bu = Ok s -> reachable s
| reach_apply forcefield rh sp rc mn r s :
    reachable s ->
    reachable (snd (apply_forcefield forcefield rh sp rc mn r s))
| reach_box x y z s :
    reachable s -> reachable (snd (set_target_box x y z s)).

(** The reading of the typed state the specification gives: the three
    attributes are all absent or all present. *)
Definition all_or_none (s : t) : Prop :=
  (typed_system s = None /\ _hoomd_objects s = None
   /\ _reference_values s = None)
  \/ (typed_system s <> None /\ _hoomd_objects s <> None
      /\ _reference_values s <> None).

End Collaborators.

Arguments mkSystem {Compound Topology Snapshot HoomdForcefield RefValues Units}.
Arguments density {Compound Topology Snapshot HoomdForcefield RefValues Units}.
Arguments target_box
  {Compound Topology Snapshot HoomdForcefield RefValues Units}.
Arguments typed_system
  {Compound Topology Snapshot HoomdForcefield RefValues Units}.
Arguments _hoomd_objects
  {Compound Topology Snapshot HoomdForcefield RefValues Units}.
Arguments _reference_values
  {Compound Topology Snapshot HoomdForcefield RefValues Units}.
Arguments molecules
  {Compound Topology Snapshot HoomdForcefield RefValues Units}.
Arguments system {Compound Topology Snapshot HoomdForcefield RefValues Units}.
Arguments events {Compound Topology Snapshot HoomdForcefield RefValues Units}.
Arguments set_target_box_attr
  {Compound Topology Snapshot HoomdForcefield RefValues Units}.
Arguments set_typed_system
  {Compound Topology Snapshot HoomdForcefield RefValues Units}.
Arguments set_hoomd_objects
  {Compound Topology Snapshot HoomdForcefield RefValues Units}.
Arguments set_reference_values
  {Compound Topology Snapshot HoomdForcefield RefValues Units}.
Arguments add_events
  {Compound Topology Snapshot HoomdForcefield RefValues Units}.
Arguments mass {Compound Topology Snapshot HoomdForcefield RefValues Units}.
Arguments _calculate_L
  {Compound Topology Snapshot HoomdForcefield RefValues Units}.
Arguments set_target_box
  {Compound Topology Snapshot HoomdForcefield RefValues Units}.
Arguments hoomd_snapshot
  {Compound Topology Snapshot HoomdForcefield RefValues Units}.
Arguments hoomd_forcefield
  {Compound Topology Snapshot HoomdForcefield RefValues Units}.
Arguments apply_forcefield
  {Compound Topology Snapshot HoomdForcefield RefValues Units}.
Arguments __init__
  {Compound Topology Snapshot HoomdForcefield RefValues Units}.
Arguments reachable
  {Compound Topology Snapshot HoomdForcefield RefValues Units}.
Arguments all_or_none
  {Compound Topology Snapshot HoomdForcefield RefValues Units}.

End System.

(** ** The charge-neutralization routine *)

Module Utils.

(** Modelled from the spec: [hoomd_polymers.utils.scale_charges], which is
    not part of the source at hand.  The charges are rescaled so that the
    total is zero, each atom giving up a share of the net charge in
    proportion to the magnitude of its charge; the result has one charge
    per atom, in the order of the input. *)
Definition scale_charges (charges : list R) (n_particles : nat) : list R :=
  let net := fold_right Rplus 0 charges in
  let magnitude := fold_right Rplus 0 (map Rabs charges) in
  map (fun q => q - Rabs q * (net / magnitude)) charges.

End Utils.

(** ** Concrete systems, for the examples below *)

Module Examples.

(** every external type is [unit] *)
Definition U := System.t unit unit unit unit unit unit.

(** the assembled compound has mass [m] *)
Definition unit_mass (m : R) (c : unit) : R := m.

(** an object of target density [d] with its compound assembled *)
Definition fresh (d : R) : U :=
  System.mkSystem d 2.5 false None None None None None None [] (Some tt)
    None [].

Definition build_ok (s : U) : outcome (option unit) := Ok (Some tt).
Definition from_mbuild_ok (c : option unit) : outcome unit := Ok tt.
Definition identify_ok (t : unit) : outcome unit := Ok t.
Definition to_gsd_ok (t : option unit) (a : bool) (u : option unit)
  : outcome (unit * unit) := Ok (tt, tt).

(** a force field typing every compound as the structure [ts] *)
Definition ff_const (ts : Typed.Structure) (c : option unit) (m : bool)
  : outcome Typed.Structure := Ok ts.

Definition create_fails (ts : Typed.Structure) (r : R) (a : bool)
  : outcome (unit * unit * unit) :=
  Raise (External "create_hoomd_forcefield failed").

Definition create_ok (ts : Typed.Structure) (r : R) (a : bool)
  : outcome (unit * unit * unit) := Ok (tt, tt, tt).

(** methane-like fragment: a carbon and one hydrogen bonded to it *)
Definition carbon_hydrogen : list Typed.Atom :=
  [Typed.mkAtom 6 12.011 (-0.1) [1%nat];
   Typed.mkAtom 1 1.008 0.1 [0%nat]].

(** molecular hydrogen: two hydrogens bonded to each other *)
Definition dihydrogen : list Typed.Atom :=
  [Typed.mkAtom 1 1.008 0 [1%nat];
   Typed.mkAtom 1 1.008 0 [0%nat]].

(** an oxygen and a carbon whose charges do not add up to zero *)
Definition charged : list Typed.Atom :=
  [Typed.mkAtom 8 15.999 (-0.8) [];
   Typed.mkAtom 6 12.011 0.5 []].

Definition scale_same (charges : list R) (n : nat) : list R := charges.

(** the object [init (InList [])] returns *)
Definition built : U :=
  System.mkSystem 1 2.5 false None None None None None None [] (Some tt)
    (Some tt) [].

Definition init (molecule : System.MoleculeInput) : outcome U :=
  System.__init__ build_ok from_mbuild_ok identify_ok to_gsd_ok
    molecule None 1 2.5 false None.

End Examples.

(** ** More concrete structures and collaborators *)

Module Fixtures.

(** a carbon bonded to nothing and a hydrogen bonded to nothing *)
Definition unbonded : list Typed.Atom :=
  [Typed.mkAtom 6 12.011 0 [];
   Typed.mkAtom 1 1.008 0 []].

(** a rescaling routine that returns one charge, and one that returns
    three, whatever it is given *)
Definition scale_one (charges : list R) (n : nat) : list R := [0].
Definition scale_three (charges : list R) (n : nat) : list R := [0; 0; 0].

(** a united-atom style fragment: the typing left the hydrogen without
    atomic number, with its mass *)
Definition found_by_mass : list Typed.Atom :=
  [Typed.mkAtom 6 12.011 0 [1%nat];
   Typed.mkAtom 0 1.008 0 [0%nat]].

Definition two_trimers : list (list System.Mol) :=
  [[System.mkMol 3 30; System.mkMol 3 30]; []; [System.mkMol 5 50]].

End Fixtures.

(** * Properties *)

(** ** Float operations *)

Lemma Reqb_true (x y : R) : x = y -> Reqb x y = true.
Proof. intros H. unfold Reqb. destruct (Req_dec_T x y); [reflexivity | contradiction]. Qed.

Lemma Reqb_false (x y : R) : x <> y -> Reqb x y = false.
Proof. intros H. unfold Reqb. destruct (Req_dec_T x y); [contradiction | reflexivity]. Qed.

Lemma Rltb_true (x y : R) : x < y -> Rltb x y = true.
Proof. intros H. unfold Rltb. destruct (Rlt_dec x y); [reflexivity | contradiction]. Qed.

Lemma Rltb_false (x y : R) : ~ x < y -> Rltb x y = false.
Proof. intros H. unfold Rltb. destruct (Rlt_dec x y); [contradiction | reflexivity]. Qed.

Lemma float_div_nonzero (x y : R) : y <> 0 -> float_div x y = Ok (x / y).
Proof. intros H. unfold float_div. now rewrite Reqb_false. Qed.

Lemma float_div_zero (x : R) : float_div x 0 = Raise ZeroDivisionError.
Proof. unfold float_div. now rewrite Reqb_true. Qed.

(** Division raises for a zero divisor and for nothing else. *)
Lemma float_div_raises (x y : R) (e : Exn) :
  float_div x y = Raise e -> y = 0 /\ e = ZeroDivisionError.
Proof.
  unfold float_div, Reqb. destruct (Req_dec_T y 0); [| discriminate].
  intros [= <-]. auto.
Qed.

Lemma float_pow_pos (x y : R) :
  0 < x -> float_pow x y = PyFloat (Rpower x y).
Proof.
  intros H. unfold float_pow.
  rewrite Rltb_false by lra. now rewrite Reqb_false by lra.
Qed.

Lemma float_pow_neg (x y : R) :
  x < 0 ->
  float_pow x y
  = PyComplex (Rpower (- x) y * cos (PI * y)) (Rpower (- x) y * sin (PI * y)).
Proof. intros H. unfold float_pow. now rewrite Rltb_true. Qed.

Lemma Rpower_third_cube (v : R) : 0 < v -> (Rpower v (1 / 3)) ^ 3 = v.
Proof.
  intros Hv. rewrite <- Rpower_pow by apply exp_pos. rewrite Rpower_mult.
  replace (1 / 3 * INR 3) with 1 by (simpl; lra). now apply Rpower_1.
Qed.

Lemma Rpower_half (v : R) : 0 < v -> Rpower v (1 / 2) = sqrt v.
Proof. intros Hv. replace (1 / 2) with (/ 2) by lra. now apply Rpower_sqrt. Qed.

(** [x ** (1/2)] is the square root on the floats that have one. *)
Lemma float_pow_half (x : R) :
  0 <= x -> float_pow x (1 / 2) = PyFloat (sqrt x).
Proof.
  intros [Hx | <-].
  - now rewrite float_pow_pos, Rpower_half.
  - unfold float_pow. rewrite Rltb_false by lra.
    rewrite Reqb_true by reflexivity. now rewrite sqrt_0.
Qed.

Lemma np_array3_floats (a b c : R) :
  np_array3 (PyFloat a) (PyFloat b) (PyFloat c)
  = (PyFloat a, PyFloat b, PyFloat c).
Proof. reflexivity. Qed.

Lemma np_array3_same (L : pynum) : np_array3 L L L = (L, L, L).
Proof. now destruct L. Qed.

(** ** Box sizing *)

Module BoxFacts.
Import BoxSizer.

Lemma volume_pos m d : 0 < m -> 0 < d -> 0 < volume m d.
Proof.
  intros Hm Hd. unfold volume, amu_to_g.
  apply Rdiv_lt_0_compat; lra.
Qed.

Lemma calculate_L_free m d :
  0 < m -> 0 < d ->
  _calculate_L m d None
  = Ok (PyFloat (Rpower (volume m d) (1 / 3) * cm_to_nm)).
Proof.
  intros Hm Hd. unfold _calculate_L.
  rewrite float_div_nonzero by lra. cbn [obind].
  fold (volume m d).
  rewrite float_pow_pos by (now apply volume_pos). reflexivity.
Qed.

(** [_calculate_L] raises for a zero density and for nothing else when
    no edge is fixed. *)
Lemma calculate_L_free_raises m d e :
  _calculate_L m d None = Raise e -> d = 0 /\ e = ZeroDivisionError.
Proof.
  unfold _calculate_L.
  destruct (float_div (m * amu_to_g) d) as [vol | e0] eqn:Hdiv; cbn.
  - discriminate.
  - intros [= <-]. exact (float_div_raises _ _ _ Hdiv).
Qed.

Lemma calculate_L_one m d f :
  d <> 0 -> f <> 0 -> 0 <= volume m d / f ->
  _calculate_L m d (Some [f])
  = Ok (PyFloat (sqrt (volume m d / f) * cm_to_nm)).
Proof.
  intros Hd Hf Hq. unfold _calculate_L.
  rewrite float_div_nonzero by exact Hd. cbn [obind].
  assert (Hp : prod [f] = f) by (unfold prod; simpl; lra).
  rewrite Hp, float_div_nonzero by exact Hf. cbn.
  fold (volume m d). now rewrite float_pow_half.
Qed.

Lemma calculate_L_two m d f1 f2 :
  d <> 0 -> f1 <> 0 -> f2 <> 0 ->
  _calculate_L m d (Some [f1; f2])
  = Ok (PyFloat (volume m d / (f1 * f2) * cm_to_nm)).
Proof.
  intros Hd H1 H2. unfold _calculate_L.
  rewrite float_div_nonzero by lra. cbn [obind].
  assert (Hp : prod [f1; f2] = f1 * f2) by (unfold prod; simpl; lra).
  rewrite Hp, float_div_nonzero by (now apply Rmult_integral_contrapositive).
  reflexivity.
Qed.

Lemma truthy_nonzero f : f <> 0 -> truthy (Some f) = true.
Proof. intros H. unfold truthy. now rewrite Reqb_false. Qed.

Lemma truthy_pos f : 0 < f -> truthy (Some f) = true.
Proof. intros H. apply truthy_nonzero. lra. Qed.

Lemma truthy_falsy c : c = None \/ c = Some 0 -> truthy c = false.
Proof. intros [-> | ->]; [reflexivity |]. unfold truthy. now rewrite Reqb_true. Qed.

Lemma scaled_nonzero f : f <> 0 -> f * nm_to_cm <> 0.
Proof.
  intros H. apply Rmult_integral_contrapositive. split; [exact H |].
  unfold nm_to_cm. lra.
Qed.

(** The shape of the three calls of [target_box_of] with one edge fixed. *)
Lemma target_box_one m d f :
  d <> 0 -> f <> 0 -> 0 <= volume m d / (f * nm_to_cm) ->
  let L := PyFloat (sqrt (volume m d / (f * nm_to_cm)) * cm_to_nm) in
  target_box_of m d (Some f) None None = Ok (PyFloat f, L, L) /\
  target_box_of m d None (Some f) None = Ok (L, PyFloat f, L) /\
  target_box_of m d None None (Some f) = Ok (L, L, PyFloat f).
Proof.
  intros Hd Hf Hq L. unfold target_box_of.
  rewrite (truthy_nonzero f Hf). cbn -[_calculate_L np_array3].
  rewrite (calculate_L_one m d _ Hd (scaled_nonzero f Hf) Hq). cbn. auto.
Qed.

Lemma target_box_two m d f1 f2 :
  d <> 0 -> f1 <> 0 -> f2 <> 0 ->
  let L := PyFloat (volume m d / (f1 * nm_to_cm * (f2 * nm_to_cm))
                    * cm_to_nm) in
  target_box_of m d (Some f1) (Some f2) None
  = Ok (PyFloat f1, PyFloat f2, L) /\
  target_box_of m d (Some f1) None (Some f2)
  = Ok (PyFloat f1, L, PyFloat f2) /\
  target_box_of m d None (Some f1) (Some f2)
  = Ok (L, PyFloat f1, PyFloat f2).
Proof.
  intros Hd H1 H2 L. unfold target_box_of.
  rewrite (truthy_nonzero f1 H1), (truthy_nonzero f2 H2).
  cbn -[_calculate_L np_array3].
  rewrite (calculate_L_two m d _ _ Hd (scaled_nonzero f1 H1)
             (scaled_nonzero f2 H2)).
  cbn. auto.
Qed.

Lemma target_box_falsy m d x y z :
  (x = None \/ x = Some 0) -> (y = None \/ y = Some 0) ->
  (z = None \/ z = Some 0) ->
  target_box_of m d x y z =
  (do L <- _calculate_L m d None ; Ok (L, L, L)).
Proof.
  intros Hx Hy Hz. unfold target_box_of.
  rewrite (truthy_falsy x Hx), (truthy_falsy y Hy), (truthy_falsy z Hz).
  cbn -[_calculate_L np_array3].
  destruct (_calculate_L m d None) as [L |]; cbn -[np_array3];
    [now rewrite np_array3_same | reflexivity].
Qed.

Lemma prod_zero (fl : list R) : prod fl = 0 -> Exists (fun v => v = 0) fl.
Proof.
  induction fl as [| v r IH]; cbn.
  - intros H. exfalso. lra.
  - intros H. apply Rmult_integral in H as [H | H]; [now left |].
    right. now apply IH.
Qed.

Lemma not_none_zero (cs : list (option R)) :
  Exists (fun v => v = 0) (map (fun v => v * nm_to_cm) (not_none cs)) ->
  Exists (fun c => c = Some 0) cs.
Proof.
  induction cs as [| [v |] r IH]; cbn; intros H.
  - inversion H.
  - inversion H as [? ? Hv | ? ? Hr]; subst.
    + left. f_equal. unfold nm_to_cm in Hv. lra.
    + right. now apply IH.
  - right. now apply IH.
Qed.

(** [target_box_of] raises only [ZeroDivisionError], and only when the
    density or a supplied constraint is zero. *)
Lemma target_box_raises m d x y z e :
  target_box_of m d x y z = Raise e ->
  e = ZeroDivisionError /\
  (d = 0 \/ x = Some 0 \/ y = Some 0 \/ z = Some 0).
Proof.
  unfold target_box_of.
  destruct (negb (truthy x || truthy y || truthy z)).
  - destruct (_calculate_L m d None) as [L | e0] eqn:HL; cbn; [discriminate |].
    intros [= <-]. destruct (calculate_L_free_raises _ _ _ HL). auto.
  - destruct (length _ =? 3)%nat.
    + destruct (float_div (m * amu_to_g) d) as [v | e0] eqn:Hdiv; cbn;
        [discriminate |].
      intros [= <-]. destruct (float_div_raises _ _ _ Hdiv). auto.
    + unfold _calculate_L.
      destruct (float_div (m * amu_to_g) d) as [v | e0] eqn:Hdiv; cbn.
      2:{ intros [= <-]. destruct (float_div_raises _ _ _ Hdiv). auto. }
      destruct (float_div v _) as [q | e0] eqn:Hq; cbn.
      { destruct (length _ =? 1)%nat; discriminate. }
      intros [= <-]. destruct (float_div_raises _ _ _ Hq) as (Hp & He).
      split; [exact He |]. right.
      apply prod_zero in Hp. apply (not_none_zero [x; y; z]) in Hp.
      inversion Hp as [? ? H1 | ? ? Hp1]; subst; [auto |].
      inversion Hp1 as [? ? H2 | ? ? Hp2]; subst; [auto |].
      inversion Hp2 as [? ? H3 | ? ? Hp3]; subst; [auto |].
      inversion Hp3.
Qed.

End BoxFacts.

Lemma Rabs_le_bounds (a b : R) : Rabs a <= b -> - b <= a <= b.
Proof. unfold Rabs. destruct (Rcase_abs a); lra. Qed.

Lemma cube_perturbed (c x : R) :
  0 < c -> Rabs (x - c) <= 1e-7 * c ->
  Rabs (x ^ 3 - c ^ 3) <= 1e-6 * c ^ 3.
Proof.
  intros Hc Hx.
  set (e := (x - c) / c).
  assert (Hxe : x = c * (1 + e)) by (unfold e; field; lra).
  assert (He : Rabs e <= 1e-7).
  { unfold e. unfold Rdiv. rewrite Rabs_mult, (Rabs_pos_eq (/ c)).
    - apply Rmult_le_reg_r with c; [exact Hc |].
      rewrite Rmult_assoc, Rinv_l by lra. lra.
    - left. now apply Rinv_0_lt_compat. }
  apply Rabs_le_bounds in He.
  replace (x ^ 3 - c ^ 3) with (c ^ 3 * (e * (3 + 3 * e + e * e)))
    by (rewrite Hxe; ring).
  assert (Hc3 : 0 < c ^ 3) by (apply pow_lt; exact Hc).
  rewrite Rabs_mult, (Rabs_pos_eq (c ^ 3)) by lra.
  rewrite (Rmult_comm 1e-6).
  apply Rmult_le_compat_l; [lra |].
  apply Rabs_le. nra.
Qed.

(** The edge of the cube reproduces the mass within [1e-6] also when it
    is off the exact length by a relative [1e-7], far more than the
    rounding of the float operations. *)
Lemma cubic_edge_tolerance (M d L L' : R) :
  0 < M -> 0 < d ->
  BoxSizer._calculate_L M d None = Ok (PyFloat L) ->
  Rabs (L' - L) <= 1e-7 * L ->
  Rabs ((L' * nm_to_cm) ^ 3 * d / amu_to_g - M) <= 1e-6 * M.
Proof.
  intros HM Hd HL Hclose.
  rewrite (BoxFacts.calculate_L_free M d HM Hd) in HL. injection HL as <-.
  pose proof (BoxFacts.volume_pos M d HM Hd) as Hv.
  set (c := Rpower (BoxSizer.volume M d) (1 / 3)) in *.
  assert (Hc : 0 < c) by apply exp_pos.
  assert (Hc3 : c ^ 3 = BoxSizer.volume M d)
    by (apply Rpower_third_cube; exact Hv).
  assert (Hx : Rabs (L' * nm_to_cm - c) <= 1e-7 * c).
  { replace (L' * nm_to_cm - c) with ((L' - c * cm_to_nm) * nm_to_cm)
      by (unfold nm_to_cm, cm_to_nm; field).
    rewrite Rabs_mult, (Rabs_pos_eq nm_to_cm) by (unfold nm_to_cm; lra).
    unfold nm_to_cm, cm_to_nm in *. nra. }
  pose proof (cube_perturbed c (L' * nm_to_cm) Hc Hx) as Hcube.
  assert (HMc : M = c ^ 3 * d / amu_to_g).
  { rewrite Hc3. unfold BoxSizer.volume, amu_to_g. field. lra. }
  clearbody c. clear Hc3 Hv.
  replace ((L' * nm_to_cm) ^ 3 * d / amu_to_g - M)
    with (((L' * nm_to_cm) ^ 3 - c ^ 3) * (d / amu_to_g))
    by (rewrite HMc; unfold amu_to_g; field; lra).
  rewrite Rabs_mult.
  assert (Hk : 0 < d / amu_to_g)
    by (unfold amu_to_g; apply Rdiv_lt_0_compat; lra).
  rewrite (Rabs_pos_eq (d / amu_to_g)) by lra.
  rewrite HMc.
  replace (1e-6 * (c ^ 3 * d / amu_to_g))
    with (1e-6 * c ^ 3 * (d / amu_to_g)) by (unfold amu_to_g; field; lra).
  apply Rmult_le_compat_r; lra.
Qed.

Section SystemBox.
Context {Compound Topology Snapshot HoomdForcefield RefValues Units : Type}.
Variable compound_mass : Compound -> R.
Implicit Types s : System.t Compound Topology Snapshot HoomdForcefield RefValues Units.

Local Abbreviation mass := (System.mass compound_mass).
Local Abbreviation set_target_box := (System.set_target_box compound_mass).
Local Abbreviation with_box := System.set_target_box_attr.

Lemma set_target_box_run s x y z :
  set_target_box x y z s =
  match BoxSizer.target_box_of (mass s) (System.density s) x y z with
  | Ok box => (Ok tt, with_box (Some box) s)
  | Raise e => (Raise e, s)
  end.
Proof.
  unfold System.set_target_box, System.bind, System.get, System.lift,
    System.modify.
  now destruct (BoxSizer.target_box_of _ _ x y z).
Qed.

(** A call whose box is [box]: it returns, [target_box] reads [box]
    afterwards, and the other attributes are as they were. *)
Lemma set_target_box_stores s x y z box :
  BoxSizer.target_box_of (mass s) (System.density s) x y z = Ok box ->
  fst (set_target_box x y z s) = Ok tt /\
  System.target_box (snd (set_target_box x y z s)) = Some box /\
  snd (set_target_box x y z s) = with_box (Some box) s.
Proof. intros H. rewrite set_target_box_run, H. cbn. auto. Qed.

(** C1.  With a positive total mass [M] (amu) and a positive density [d]
    (g/cm^3), [set_target_box] without constraints returns, and
    [target_box] then reads a cube: the three edges are the same float
    [L = (M * 1.66054e-24 / d)^(1/3) * 1e7] nm, nothing else of the object
    having changed; and [L], taken back to cm and cubed, times the
    density, gives the mass back within a relative tolerance of [1e-6]
    (exactly, in the real-number reading of the floats). *)
Theorem set_target_box_cubic s :
  0 < mass s -> 0 < System.density s ->
  let L := Rpower (mass s * 1.66054e-24 / System.density s) (1 / 3) * 1e7 in
  let run := set_target_box None None None s in
  fst run = Ok tt /\
  System.target_box (snd run) = Some (PyFloat L, PyFloat L, PyFloat L) /\
  snd run = with_box (Some (PyFloat L, PyFloat L, PyFloat L)) s /\
  Rabs ((L * 1e-7) ^ 3 * System.density s / 1.66054e-24 - mass s)
    <= 1e-6 * mass s.
Proof.
  intros Hm Hd L run.
  assert (Hbox : BoxSizer.target_box_of (mass s) (System.density s)
                   None None None
                 = Ok (PyFloat L, PyFloat L, PyFloat L)).
  { rewrite (BoxFacts.target_box_falsy _ _ None None None) by auto.
    now rewrite (BoxFacts.calculate_L_free _ _ Hm Hd). }
  destruct (set_target_box_stores s None None None _ Hbox) as (H1 & H2 & H3).
  repeat split; try assumption.
  pose proof (BoxFacts.volume_pos _ _ Hm Hd) as Hv.
  unfold BoxSizer.volume, amu_to_g in Hv.
  replace ((L * 1e-7) ^ 3)
    with ((Rpower (mass s * 1.66054e-24 / System.density s) (1 / 3)) ^ 3)
    by (unfold L; field).
  rewrite (Rpower_third_cube _ Hv).
  replace (mass s * 1.66054e-24 / System.density s * System.density s
           / 1.66054e-24 - mass s) with 0 by (field; lra).
  rewrite Rabs_R0. lra.
Qed.

(** C2.  For a density that is not zero, with
    [volume = mass * 1.66054e-24 / density]: one fixed edge [f] (nm), not
    zero and such that [volume / (f * 1e-7)] has a square root, in any of
    the three positions, makes the call return, and [target_box] then
    reads [f] in its place and [sqrt (volume / (f * 1e-7)) * 1e7] for
    each of the two free edges; two fixed edges [f1], [f2], not zero, in
    any two positions, make [target_box] read them in their places and
    [volume / (f1 * 1e-7 * (f2 * 1e-7)) * 1e7] for the free edge.  In
    every case nothing else of the object changes. *)
Theorem set_target_box_fixed_edges s (f f1 f2 : R) :
  let volume := mass s * 1.66054e-24 / System.density s in
  System.density s <> 0 ->
  f <> 0 -> 0 <= volume / (f * 1e-7) -> f1 <> 0 -> f2 <> 0 ->
  let L1 := PyFloat (sqrt (volume / (f * 1e-7)) * 1e7) in
  let L2 := PyFloat (volume / (f1 * 1e-7 * (f2 * 1e-7)) * 1e7) in
  let stored x y z := System.target_box (snd (set_target_box x y z s)) in
  (stored (Some f) None None = Some (PyFloat f, L1, L1) /\
   stored None (Some f) None = Some (L1, PyFloat f, L1) /\
   stored None None (Some f) = Some (L1, L1, PyFloat f) /\
   stored (Some f1) (Some f2) None = Some (PyFloat f1, PyFloat f2, L2) /\
   stored (Some f1) None (Some f2) = Some (PyFloat f1, L2, PyFloat f2) /\
   stored None (Some f1) (Some f2) = Some (L2, PyFloat f1, PyFloat f2)) /\
  (set_target_box (Some f) None None s
   = (Ok tt, with_box (Some (PyFloat f, L1, L1)) s) /\
   set_target_box None (Some f) None s
   = (Ok tt, with_box (Some (L1, PyFloat f, L1)) s) /\
   set_target_box None None (Some f) s
   = (Ok tt, with_box (Some (L1, L1, PyFloat f)) s) /\
   set_target_box (Some f1) (Some f2) None s
   = (Ok tt, with_box (Some (PyFloat f1, PyFloat f2, L2)) s) /\
   set_target_box (Some f1) None (Some f2) s
   = (Ok tt, with_box (Some (PyFloat f1, L2, PyFloat f2)) s) /\
   set_target_box None (Some f1) (Some f2) s
   = (Ok tt, with_box (Some (L2, PyFloat f1, PyFloat f2)) s)).
Proof.
  intros volume Hd Hf Hq H1 H2 L1 L2 stored.
  destruct (BoxFacts.target_box_one (mass s) (System.density s) f Hd Hf Hq)
    as (Ha & Hb & Hc).
  destruct (BoxFacts.target_box_two (mass s) (System.density s) f1 f2
              Hd H1 H2) as (Hx & Hy & Hz).
  unfold stored.
  rewrite !set_target_box_run, Ha, Hb, Hc, Hx, Hy, Hz.
  repeat split; reflexivity.
Qed.


End SystemBox.

Lemma set_target_box_cubic_witness :
  let s := Examples.fresh 1 in
  let L := Rpower (1000 * 1.66054e-24 / 1) (1 / 3) * 1e7 in
  System.target_box
    (snd (System.set_target_box (Examples.unit_mass 1000) None None None s))
  = Some (PyFloat L, PyFloat L, PyFloat L).
Proof.
  refine (proj1 (proj2 (set_target_box_cubic (Examples.unit_mass 1000)
                          (Examples.fresh 1) _ _)));
    cbn; unfold Examples.unit_mass; lra.
Defined.

Lemma set_target_box_fixed_edges_witness :
  let s := Examples.fresh 1 in
  let L2 := PyFloat (1000 * 1.66054e-24 / 1 / (2 * 1e-7 * (3 * 1e-7)) * 1e7) in
  System.target_box
    (snd (System.set_target_box (Examples.unit_mass 1000)
            (Some 2) (Some 3) None s))
  = Some (PyFloat 2, PyFloat 3, L2).
Proof.
  refine (proj1 (proj2 (proj2 (proj2 (proj1
            (set_target_box_fixed_edges (Examples.unit_mass 1000)
               (Examples.fresh 1) 5 2 3 _ _ _ _ _))))));
    unfold System.mass, Examples.unit_mass, Examples.fresh;
    cbn [System.system System.density]; lra.
Defined.


(** ** The typed structure *)

Module TypedFacts.
Import Typed.

Lemma atom_eta (a : Atom) :
  mkAtom (atomic_number a) (mass a) (charge a) (bond_partners a) = a.
Proof. now destruct a. Qed.

(** *** Selection *)

Lemma select_from_none p k l :
  select_from p k l = [] -> Forall (fun a => p a = false) l.
Proof.
  revert k. induction l as [| a r IH]; intros k H; [constructor |].
  cbn in H. destruct (p a) eqn:Hp; [discriminate |].
  constructor; [assumption | now apply IH with (S k)].
Qed.

Lemma select_from_ext p q k l l' :
  map p l = map q l' -> select_from p k l = select_from q k l'.
Proof.
  revert k l'. induction l as [| a r IH]; intros k [| a' r'] H;
    try discriminate; [reflexivity |].
  cbn in H. injection H as Ha Hr. cbn. rewrite Ha, (IH (S k) r' Hr).
  reflexivity.
Qed.

(** *** Stripping *)

Lemma renumber_all_false mask i :
  Forall (fun m => m = false) mask -> renumber mask i = i.
Proof.
  intros H. unfold renumber.
  assert (E : List.filter (fun m : bool => m) (take i mask) = []).
  { assert (Ht : Forall (fun m => m = false) (take i mask))
      by now apply Forall_take.
    induction Ht as [| m r Hm _ IH]; [reflexivity |].
    cbn. now rewrite Hm. }
  rewrite E. cbn. lia.
Qed.

Lemma keep_partner_all_false mask i :
  Forall (fun m => m = false) mask -> keep_partner mask i = true.
Proof.
  intros H. unfold keep_partner.
  destruct (mask !! i) as [m |] eqn:E; [| reflexivity].
  cbn. rewrite Forall_lookup in H. now rewrite (H i m E).
Qed.

Lemma strip_with_all_false full mask l :
  Forall (fun m => m = false) full ->
  Forall (fun m => m = false) mask ->
  length mask = length l ->
  strip_with full mask l = l.
Proof.
  intros Hfull Hmask. revert l.
  induction Hmask as [| m ms Hm _ IH]; intros [| a r] Hlen;
    try discriminate; [reflexivity |].
  cbn. rewrite Hm. f_equal.
  - rewrite <- (atom_eta a) at 5. f_equal.
    induction (bond_partners a) as [| b bs IHb]; [reflexivity |].
    cbn. rewrite keep_partner_all_false by assumption.
    cbn. now rewrite renumber_all_false, IHb.
  - apply IH. cbn in Hlen. lia.
Qed.

Lemma strip_nothing l :
  Forall (fun a => is_stripped a = false) l ->
  strip (map is_stripped l) l = l.
Proof.
  intros H. unfold strip.
  assert (Hm : Forall (fun m => m = false) (map is_stripped l)).
  { induction H; cbn; constructor; auto. }
  apply strip_with_all_false; auto. now rewrite length_map.
Qed.

(** [f] reads an atom without its bonds, as [mass] and [charge] do. *)
Lemma total_strip f l :
  (forall a bps,
      f (mkAtom (atomic_number a) (mass a) (charge a) bps) = f a) ->
  total f (strip (map is_stripped l) l)
  = total f (List.filter (fun a => negb (is_stripped a)) l).
Proof.
  intros Hf. unfold strip. generalize (map is_stripped l) at 1 as full.
  intros full. induction l as [| a r IH]; [reflexivity |].
  cbn. destruct (is_stripped a); cbn; [exact IH |].
  unfold total in *. cbn. now rewrite IH, Hf.
Qed.

Lemma total_filter_split f p l :
  total f l
  = total f (List.filter (fun a => negb (p a)) l) + total f (List.filter p l).
Proof.
  unfold total. induction l as [| a r IH]; cbn; [lra |].
  destruct (p a); cbn; rewrite IH; lra.
Qed.

(** *** Identification of the hydrogens *)

Lemma identify_hydrogens_order l :
  fst (identify_hydrogens l)
  = match select by_element l with
    | [] => select by_mass l
    | h :: hs => h :: hs
    end.
Proof.
  unfold identify_hydrogens.
  destruct (select by_element l) as [| h hs]; cbn; [| reflexivity].
  now destruct (select by_mass l).
Qed.

Lemma identify_hydrogens_warns l :
  snd (identify_hydrogens l)
  = match select by_element l, select by_mass l with
    | [], [] => [Warned not_found_msg]
    | _, _ => []
    end.
Proof.
  unfold identify_hydrogens.
  destruct (select by_element l) as [| h hs]; cbn; [| reflexivity].
  now destruct (select by_mass l).
Qed.

Lemma remove_hydrogens_step_none l :
  select by_element l = [] -> select by_mass l = [] ->
  remove_hydrogens_step l
  = (Ok tt, l, [Printed removing_msg; Warned not_found_msg]).
Proof.
  intros He Hm. unfold remove_hydrogens_step, identify_hydrogens.
  rewrite He, Hm. cbn.
  rewrite strip_nothing; [reflexivity |].
  exact (select_from_none by_element 0 l He).
Qed.

(** *** Writing charges back *)

Lemma write_charges_app cs : forall pre l,
  (length cs <= length l)%nat ->
  write_charges (length pre) cs (pre ++ l)
  = (Ok tt, pre ++ zip_with set_charge cs l ++ drop (length cs) l).
Proof.
  induction cs as [| c cs IH]; intros pre l Hlen.
  - cbn. now rewrite drop_0.
  - destruct l as [| a r]; cbn in Hlen; [lia |].
    cbn [write_charges].
    assert (Hlt : (length pre <? length (pre ++ a :: r))%nat = true).
    { apply Nat.ltb_lt. rewrite length_app. cbn. lia. }
    rewrite Hlt.
    replace (alter (set_charge c) (length pre) (pre ++ a :: r))
      with ((pre ++ [set_charge c a]) ++ r).
    2:{ rewrite <- (Nat.add_0_r (length pre)) at 1.
        rewrite alter_app_r. cbn. now rewrite <- app_assoc. }
    replace (S (length pre)) with (length (pre ++ [set_charge c a]))
      by (rewrite length_app; cbn; lia).
    rewrite IH by lia. cbn. now rewrite <- app_assoc.
Qed.

Lemma write_charges_all cs l :
  length cs = length l ->
  write_charges 0 cs l = (Ok tt, zip_with set_charge cs l).
Proof.
  intros Hlen.
  pose proof (write_charges_app cs [] l ltac:(lia)) as H. cbn in H.
  rewrite H, Hlen, drop_all. now rewrite app_nil_r.
Qed.

Lemma zip_with_set_charge cs l :
  length cs = length l ->
  map charge (zip_with set_charge cs l) = cs /\
  map mass (zip_with set_charge cs l) = map mass l /\
  map atomic_number (zip_with set_charge cs l) = map atomic_number l /\
  map bond_partners (zip_with set_charge cs l) = map bond_partners l.
Proof.
  revert l. induction cs as [| c cs IH]; intros [| a r] Hlen;
    try discriminate; [cbn; auto |].
  cbn in Hlen. destruct (IH r ltac:(lia)) as (Hq & Hm & Hz & Hb).
  cbn. rewrite Hq, Hm, Hz, Hb. auto.
Qed.

Lemma remove_charges_zero l :
  Forall (fun a => charge a = 0) (remove_charges_step l).
Proof.
  unfold remove_charges_step.
  induction l as [| a r IH]; cbn; constructor; auto.
Qed.


(** *** Sums over the store *)

Local Abbreviation sum_at f l hs :=
  (fold_right Rplus 0 (map (fun h : nat => from_option f 0 (l !! h)) hs)).

Lemma total_alter_same (f : Atom -> R) g i l :
  (forall a, f (g a) = f a) -> total f (alter g i l) = total f l.
Proof.
  intros Hg. unfold total. revert i.
  induction l as [| a r IH]; intros [| i]; cbn; try reflexivity.
  - now rewrite Hg.
  - now rewrite IH.
Qed.

Lemma total_alter_add (f : Atom -> R) g i l a d :
  l !! i = Some a -> (forall x, f (g x) = f x + d) ->
  total f (alter g i l) = total f l + d.
Proof.
  intros Hi Hg. unfold total. revert i Hi.
  induction l as [| x r IH]; intros [| i] Hi; cbn in *; try discriminate.
  - rewrite Hg. lra.
  - rewrite (IH i Hi). lra.
Qed.

Lemma elem_of_select_from p l : forall k i,
  i ∈ select_from p k l <->
  exists a, (k <= i)%nat /\ l !! (i - k)%nat = Some a /\ p a = true.
Proof.
  induction l as [| x r IH]; intros k i; cbn.
  - split; [intros H; inversion H | intros (a & _ & H & _); discriminate].
  - assert (Hr : i ∈ select_from p (S k) r <->
                 exists a, (k < i)%nat /\ r !! (i - S k)%nat = Some a
                           /\ p a = true).
    { rewrite IH. split; intros (a & H1 & H2 & H3); exists a;
        repeat split; auto; lia. }
    destruct (p x) eqn:Hp.
    + rewrite elem_of_cons, Hr. split.
      * intros [-> | (a & H1 & H2 & H3)].
        -- exists x. rewrite Nat.sub_diag. auto.
        -- exists a. repeat split; auto; [lia |].
           replace (i - k)%nat with (S (i - S k)) by lia. exact H2.
      * intros (a & H1 & H2 & H3).
        destruct (decide (i = k)) as [-> | Hne]; [now left | right].
        exists a. repeat split; auto; [lia |].
        replace (i - k)%nat with (S (i - S k)) in H2 by lia. exact H2.
    + rewrite Hr. split; intros (a & H1 & H2 & H3).
      * exists a. repeat split; auto; [lia |].
        replace (i - k)%nat with (S (i - S k)) by lia. exact H2.
      * destruct (decide (i = k)) as [-> | Hne].
        -- rewrite Nat.sub_diag in H2. cbn in H2. congruence.
        -- exists a. repeat split; auto; [lia |].
           replace (i - k)%nat with (S (i - S k)) in H2 by lia. exact H2.
Qed.

Lemma elem_of_select p l i :
  i ∈ select p l <-> exists a, l !! i = Some a /\ p a = true.
Proof.
  unfold select. rewrite elem_of_select_from. rewrite Nat.sub_0_r.
  split; intros (a & H); exists a; intuition lia.
Qed.

Lemma sum_at_select_from f p l : forall pre,
  sum_at f (pre ++ l) (select_from p (length pre) l)
  = total f (List.filter p l).
Proof.
  induction l as [| x r IH]; intros pre; [reflexivity |].
  assert (E : pre ++ x :: r = (pre ++ [x]) ++ r) by now rewrite <- app_assoc.
  assert (El : S (length pre) = length (pre ++ [x]))
    by (rewrite length_app; cbn; lia).
  cbn [select_from List.filter]. destruct (p x).
  - cbn [map fold_right]. rewrite list_lookup_middle by reflexivity.
    cbn [from_option]. rewrite E, El, IH. reflexivity.
  - rewrite E, El, IH. reflexivity.
Qed.

Lemma sum_at_select f p l :
  sum_at f l (select p l) = total f (List.filter p l).
Proof. exact (sum_at_select_from f p l []). Qed.

Lemma map_pointwise {B} (p q : Atom -> B) l l' :
  length l' = length l ->
  (forall i a a', l !! i = Some a -> l' !! i = Some a' -> q a' = p a) ->
  map q l' = map p l.
Proof.
  revert l'. induction l as [| a r IH]; intros [| a' r'] Hlen H;
    try discriminate; [reflexivity |].
  cbn. f_equal.
  - exact (H 0%nat a a' eq_refl eq_refl).
  - apply IH; [cbn in Hlen; lia |].
    intros i x x' Hx Hx'. exact (H (S i) x x' Hx Hx').
Qed.


(** *** The loop over the hydrogens *)

(** One iteration, for a hydrogen [h] whose first partner [b] is another
    atom of the store. *)
Lemma merge_step hs l h b ah rest :
  l !! h = Some ah -> bond_partners ah = b :: rest -> h <> b ->
  (b < length l)%nat ->
  let l3 := alter (fun x => set_charge (charge x + charge ah) x) b
              (alter (fun x => set_mass (mass x + mass ah) x) b
                 (alter (set_atomic_number 1) h l)) in
  merge_hydrogens (h :: hs) l = merge_hydrogens hs l3 /\
  length l3 = length l /\
  (forall i a, l !! i = Some a ->
     exists a3, l3 !! i = Some a3 /\
       bond_partners a3 = bond_partners a /\
       (i <> b -> mass a3 = mass a /\ charge a3 = charge a) /\
       atomic_number a3 = if decide (i = h) then 1%Z else atomic_number a) /\
  total mass l3 = total mass l + mass ah /\
  total charge l3 = total charge l + charge ah.
Proof.
  intros Hh Hb Hne Hlt l3.
  assert (H1 : alter (set_atomic_number 1) h l !! h
               = Some (set_atomic_number 1 ah))
    by now rewrite list_lookup_alter_eq, Hh.
  destruct (lookup_lt_is_Some_2 l b Hlt) as [ab Hab].
  repeat split.
  - cbn [merge_hydrogens]. rewrite H1. cbn [bond_partners set_atomic_number].
    rewrite Hb.
    rewrite list_lookup_alter_ne by auto. rewrite H1. reflexivity.
  - unfold l3. now rewrite !length_alter.
  - intros i a Hi. unfold l3.
    destruct (decide (i = b)) as [-> | Hib].
    + rewrite !list_lookup_alter_eq.
      rewrite list_lookup_alter_ne by auto. rewrite Hi. cbn.
      eexists; split; [reflexivity |]. cbn.
      repeat split; try congruence.
      destruct (decide (b = h)); congruence.
    + rewrite !(list_lookup_alter_ne _ _ b i) by auto.
      destruct (decide (i = h)) as [-> | Hih].
      * rewrite H1. eexists; split; [reflexivity |].
        assert (a = ah) by congruence. subst a. cbn. auto.
      * rewrite list_lookup_alter_ne by auto. rewrite Hi.
        eexists; split; [reflexivity |]. auto.
  - unfold l3. rewrite total_alter_same by reflexivity.
    assert (Hb1 : alter (set_atomic_number 1) h l !! b = Some ab)
      by (rewrite list_lookup_alter_ne by auto; exact Hab).
    rewrite (total_alter_add mass _ b _ ab (mass ah) Hb1) by reflexivity.
    now rewrite total_alter_same by reflexivity.
  - unfold l3.
    assert (Hb2 : alter (fun x => set_mass (mass x + mass ah) x) b
                    (alter (set_atomic_number 1) h l) !! b
                  = Some (set_mass (mass ab + mass ah) ab)).
    { rewrite list_lookup_alter_eq, list_lookup_alter_ne by auto.
      now rewrite Hab. }
    rewrite (total_alter_add charge _ b _ _ (charge ah) Hb2) by reflexivity.
    rewrite !total_alter_same by reflexivity. reflexivity.
Qed.


Lemma first_partner_heavy_true l H h :
  first_partner_heavy l H h = true <->
  exists a b rest, l !! h = Some a /\ bond_partners a = b :: rest /\
                   (b < length l)%nat /\ b ∉ H.
Proof.
  unfold first_partner_heavy. split.
  - destruct (l !! h) as [a |]; [| discriminate].
    destruct (bond_partners a) as [| b rest] eqn:Hb; [discriminate |].
    rewrite andb_true_iff, Nat.ltb_lt, negb_true_iff, bool_decide_eq_false.
    intros [Hlt Hnot]. now exists a, b, rest.
  - intros (a & b & rest & -> & -> & Hlt & Hnot).
    rewrite andb_true_iff, Nat.ltb_lt, negb_true_iff, bool_decide_eq_false.
    auto.
Qed.

Lemma sum_at_ext (f : Atom -> R) (l l' : list Atom) (hs : list nat) :
  (forall h, h ∈ hs ->
     from_option f 0 (l' !! h) = from_option f 0 (l !! h)) ->
  sum_at f l' hs = sum_at f l hs.
Proof.
  induction hs as [| h hs IH]; intros H; [reflexivity |].
  cbn. rewrite IH by (intros; apply H; now right).
  now rewrite (H h) by left.
Qed.

(** The loop returns, leaves the hydrogens of [H] as they were apart from
    their atomic number, and adds to the total what the hydrogens of [hs]
    carry. *)
Lemma merge_hydrogens_sim H : forall hs l,
  (forall h, h ∈ hs -> h ∈ H /\ first_partner_heavy l H h = true) ->
  exists l',
    merge_hydrogens hs l = (Ok tt, l') /\
    length l' = length l /\
    (forall i a, l !! i = Some a ->
       exists a', l' !! i = Some a' /\
         bond_partners a' = bond_partners a /\
         (i ∈ H -> mass a' = mass a /\ charge a' = charge a) /\
         atomic_number a'
         = if bool_decide (i ∈ hs) then 1%Z else atomic_number a) /\
    total mass l' = total mass l + sum_at mass l hs /\
    total charge l' = total charge l + sum_at charge l hs.
Proof.
  induction hs as [| h hs IH]; intros l Hok.
  - exists l. cbn. repeat split; try lra.
    intros i a Hi. exists a. auto.
  - destruct (Hok h ltac:(left)) as [HhH Hheavy].
    apply first_partner_heavy_true in Hheavy
      as (ah & b & rest & Hh & Hb & Hlt & HbH).
    assert (Hne : h <> b) by congruence.
    destruct (merge_step hs l h b ah rest Hh Hb Hne Hlt)
      as (Hrun & Hlen & Hsim & Hmass & Hcharge).
    set (l3 := alter (fun x => set_charge (charge x + charge ah) x) b
                 (alter (fun x => set_mass (mass x + mass ah) x) b
                    (alter (set_atomic_number 1) h l))) in *.
    destruct (IH l3) as (l' & Hrun' & Hlen' & Hsim' & Hmass' & Hcharge').
    { intros h' Hh'. destruct (Hok h' ltac:(now right)) as [Hh'H Hheavy'].
      split; [assumption |].
      apply first_partner_heavy_true in Hheavy'
        as (a' & b' & rest' & Ha' & Hb' & Hlt' & Hb'H).
      apply first_partner_heavy_true.
      destruct (Hsim h' a' Ha') as (a3 & Ha3 & Hbp & _).
      exists a3, b', rest'. rewrite Hbp, Hlen. auto. }
    assert (Hsame : forall h', h' ∈ H ->
              l3 !! h' = None /\ l !! h' = None \/
              exists a a3, l !! h' = Some a /\ l3 !! h' = Some a3 /\
                           mass a3 = mass a /\ charge a3 = charge a).
    { intros h' Hh'. destruct (l !! h') as [a |] eqn:Ha.
      - right. destruct (Hsim h' a Ha) as (a3 & Ha3 & _ & Hmc & _).
        exists a, a3. repeat split; auto; apply Hmc; congruence.
      - left. split; [| reflexivity].
        apply lookup_ge_None. rewrite Hlen. now apply lookup_ge_None. }
    assert (Hsum : forall f : Atom -> R,
              (forall a a3, mass a3 = mass a -> charge a3 = charge a ->
                            f a3 = f a) ->
              sum_at f l3 hs = sum_at f l hs).
    { intros f Hf. apply sum_at_ext. intros h' Hh'.
      destruct (Hsame h' (proj1 (Hok h' ltac:(now right))))
        as [[-> ->] | (a & a3 & -> & -> & Hm & Hc)]; cbn; auto. }
    exists l'. repeat split.
    + now rewrite Hrun.
    + congruence.
    + intros i a Hi.
      destruct (Hsim i a Hi) as (a3 & Ha3 & Hbp3 & Hmc3 & Han3).
      destruct (Hsim' i a3 Ha3) as (a' & Ha' & Hbp' & Hmc' & Han').
      exists a'. repeat split; auto.
      * congruence.
      * destruct (Hmc' H0) as [-> _]. apply Hmc3. congruence.
      * destruct (Hmc' H0) as [_ ->]. apply Hmc3. congruence.
      * rewrite Han', Han3.
        destruct (decide (i = h)) as [-> | Hih].
        -- rewrite (bool_decide_eq_true_2 (h ∈ h :: hs)) by left.
           now destruct (bool_decide (h ∈ hs)).
        -- destruct (bool_decide (i ∈ hs)) eqn:Hin.
           ++ apply bool_decide_eq_true in Hin.
              now rewrite bool_decide_eq_true_2 by now right.
           ++ apply bool_decide_eq_false in Hin.
              rewrite bool_decide_eq_false_2; [reflexivity |].
              rewrite elem_of_cons. tauto.
    + rewrite Hmass', Hmass, (Hsum mass) by auto.
      cbn. rewrite Hh. cbn. lra.
    + rewrite Hcharge', Hcharge, (Hsum charge) by auto.
      cbn. rewrite Hh. cbn. lra.
Qed.


Lemma strip_no_hydrogen l :
  Forall (fun a => atomic_number a <> 1%Z) (strip (map is_stripped l) l).
Proof.
  unfold strip. generalize (map is_stripped l) at 1 as full. intros full.
  induction l as [| a r IH]; cbn; [constructor |].
  destruct (is_stripped a) eqn:Ha; [exact IH |].
  constructor; [| exact IH].
  cbn. unfold is_stripped in Ha. now apply Z.eqb_neq.
Qed.

(** The block for hydrogens selected by [P], when every atom that already
    carries atomic number 1 is selected. *)
Lemma merge_and_strip (P : Atom -> bool) (l : list Atom) :
  (forall a, a ∈ l -> is_stripped a = true -> P a = true) ->
  forallb (first_partner_heavy l (select P l)) (select P l) = true ->
  exists l',
    merge_hydrogens (select P l) l = (Ok tt, l') /\
    total mass (strip (map is_stripped l') l') = total mass l /\
    total charge (strip (map is_stripped l') l') = total charge l.
Proof.
  intros HP Hheavy. set (hs := select P l) in *.
  destruct (merge_hydrogens_sim hs hs l) as (l' & Hrun & Hlen & Hsim & Hm & Hc).
  { intros h Hh. split; [assumption |].
    rewrite forallb_forall in Hheavy. apply Hheavy.
    now apply list_elem_of_In. }
  exists l'. split; [exact Hrun |].
  assert (Hsel : select is_stripped l' = hs).
  { unfold hs, select. apply select_from_ext.
    apply map_pointwise; [exact Hlen |].
    intros i a a' Ha Ha'.
    destruct (Hsim i a Ha) as (a'' & Ha'' & _ & _ & Han).
    assert (a'' = a') by congruence. subst a''.
    unfold is_stripped. rewrite Han.
    destruct (bool_decide (i ∈ hs)) eqn:Hin.
    - apply bool_decide_eq_true in Hin. apply elem_of_select in Hin.
      destruct Hin as (x & Hx & HPx). assert (x = a) by congruence.
      subst x. now rewrite HPx.
    - apply bool_decide_eq_false in Hin.
      destruct (P a) eqn:HPa.
      + exfalso. apply Hin. apply elem_of_select. now exists a.
      + destruct (atomic_number a =? 1)%Z eqn:Hz; [| reflexivity].
        rewrite HP in HPa; [discriminate | | exact Hz].
        now apply list_elem_of_lookup_2 with i. }
  assert (Hkeep : forall f : Atom -> R,
            (forall a a', mass a' = mass a -> charge a' = charge a ->
                          f a' = f a) ->
            sum_at f l' hs = sum_at f l hs).
  { intros f Hf. apply sum_at_ext. intros h Hh.
    destruct (l !! h) as [a |] eqn:Ha.
    - destruct (Hsim h a Ha) as (a' & -> & _ & Hmc & _). cbn.
      destruct (Hmc Hh). auto.
    - assert (l' !! h = None) as ->; [| reflexivity].
      apply lookup_ge_None. rewrite Hlen. now apply lookup_ge_None. }
  split.
  - rewrite total_strip by reflexivity.
    pose proof (total_filter_split mass is_stripped l') as Hsplit.
    rewrite <- (sum_at_select mass is_stripped l'), Hsel in Hsplit.
    rewrite (Hkeep mass) in Hsplit by auto. lra.
  - rewrite total_strip by reflexivity.
    pose proof (total_filter_split charge is_stripped l') as Hsplit.
    rewrite <- (sum_at_select charge is_stripped l'), Hsel in Hsplit.
    rewrite (Hkeep charge) in Hsplit by auto. lra.
Qed.

(** C4, amended.  When every identified hydrogen has a first bond
    partner that is an atom of the structure and not itself an identified
    hydrogen, the block under [if remove_hydrogens:] returns, the sum of
    the atom masses and the sum of the atom charges are what they were
    before it (the mass and charge of each hydrogen having been added to
    its first bond partner), and no atom of atomic number 1 is left. *)
Theorem remove_hydrogens_conserves (l : list Atom) :
  hydrogens_on_heavy l = true ->
  exists l',
    remove_hydrogens_step l
    = (Ok tt, l', Printed removing_msg :: snd (identify_hydrogens l)) /\
    total mass l' = total mass l /\
    total charge l' = total charge l /\
    Forall (fun a => atomic_number a <> 1%Z) l'.
Proof.
  unfold hydrogens_on_heavy. rewrite identify_hydrogens_order.
  intros Hheavy.
  assert (HP : exists P,
             fst (identify_hydrogens l) = select P l /\
             (forall a, a ∈ l -> is_stripped a = true -> P a = true) /\
             forallb (first_partner_heavy l (select P l)) (select P l)
             = true).
  { rewrite identify_hydrogens_order.
    destruct (select by_element l) as [| h hs] eqn:He.
    - exists by_mass. repeat split; [| exact Hheavy].
      intros a Ha Hs. pose proof (select_from_none by_element 0 l He) as Hn.
      rewrite Forall_forall in Hn. specialize (Hn a Ha).
      unfold by_element, element in Hn. unfold is_stripped in Hs. congruence.
    - exists by_element. rewrite He. repeat split; [| exact Hheavy].
      intros a _ Hs. exact Hs. }
  destruct HP as (P & Hid & HPs & HPh).
  destruct (merge_and_strip P l HPs HPh) as (l' & Hrun & Hm & Hc).
  exists (strip (map is_stripped l') l').
  repeat split; auto using strip_no_hydrogen.
  unfold remove_hydrogens_step.
  destruct (identify_hydrogens l) as [hs ev]. cbn in Hid. subst hs.
  now rewrite Hrun.
Qed.

End TypedFacts.

(** ** Accessors of the typed state *)

Import Examples.

Section Accessors.
Context {Compound Topology Snapshot HoomdForcefield RefValues Units : Type}.
Implicit Types s : System.t Compound Topology Snapshot HoomdForcefield RefValues Units.

Lemma hoomd_snapshot_unapplied s :
  System._hoomd_objects s = None ->
  System.hoomd_snapshot s = Raise (ValueError System.snapshot_msg).
Proof. intros H. unfold System.hoomd_snapshot. now rewrite H. Qed.

(** C5.  Reading [hoomd_forcefield] never raises the [ValueError] of an
    unapplied force field and never returns: the getter reads the
    property it defines, so whatever the object and however many frames
    the interpreter allows, the read ends in [RecursionError]. *)
Theorem hoomd_forcefield_recursion
    (forcefield_truthy : HoomdForcefield -> bool) (depth : nat) s :
  System.hoomd_forcefield forcefield_truthy depth s = Raise RecursionError.
Proof.
  induction depth as [| d IH]; cbn; [reflexivity |].
  now rewrite IH.
Qed.

End Accessors.

Section Construction.
Context {Compound Topology Snapshot HoomdForcefield RefValues Units : Type}.
Variable _build_system :
  System.t Compound Topology Snapshot HoomdForcefield RefValues Units ->
  outcome (option Compound).
Variable from_mbuild : option Compound -> outcome Topology.
Variable identify_connections : Topology -> outcome Topology.
Variable to_gsd_snapshot :
  option Topology -> bool -> option Units -> outcome (Snapshot * RefValues).

Local Abbreviation __init__ :=
  (System.__init__ _build_system from_mbuild identify_connections
     to_gsd_snapshot).

Lemma init_attributes molecule ff d rc a bu s :
  __init__ molecule ff d rc a bu = Ok s ->
  System.typed_system s = None /\ System._hoomd_objects s = None /\
  System._reference_values s = None /\ System.target_box s = None.
Proof.
  unfold System.__init__. intros H.
  destruct (match molecule with
            | System.InList items => _
            | System.InMolecule m => _
            | System.InOther _ => _ end) as [mols |]; [| discriminate].
  cbn [obind] in H.
  destruct (_build_system _) as [sys |]; [| discriminate]. cbn [obind] in H.
  destruct (System._convert_to_gmso _ _ _ _ _ _ _ _ _) as [top |];
    [| discriminate]. cbn [obind] in H.
  destruct (System._create_hoomd_snapshot _ _ _ _ _ _ _ _) as [snap |];
    [| discriminate]. cbn [obind] in H.
  injection H as <-. cbn. auto.
Qed.

(** C6, amended.  A [molecule] argument that is neither a list nor a
    [Molecule] is not rejected: [self.molecules] stays empty and the
    constructor goes on as it does for an empty list, returning the object
    whenever assembly, conversion to a topology and the snapshot
    return. *)
Theorem init_other_input_not_rejected repr ff d rc a bu :
  __init__ (System.InOther repr) ff d rc a bu
  = __init__ (System.InList []) ff d rc a bu
  /\ forall sys top0 top r,
      _build_system
        (System.mkSystem d rc a bu None None None None None [] None None [])
      = Ok sys ->
      from_mbuild sys = Ok top0 ->
      identify_connections top0 = Ok top ->
      to_gsd_snapshot (Some top) a bu = Ok r ->
      __init__ (System.InOther repr) ff d rc a bu
      = Ok (System.mkSystem d rc a bu None None None None None [] sys
              (Some top) []).
Proof.
  split; [reflexivity |].
  intros sys top0 top r Hb Hf Hi Hg.
  unfold System.__init__, System.set_molecules. cbn.
  rewrite Hb. cbn. unfold System._convert_to_gmso, System.set_system. cbn.
  rewrite Hf. cbn. rewrite Hi. cbn.
  unfold System._create_hoomd_snapshot, System.set_gmso_system. cbn.
  rewrite Hg. reflexivity.
Qed.

End Construction.

Lemma init_other_input_accepted :
  init (System.InOther "None") = Ok built.
Proof. reflexivity. Qed.

Lemma init_other_input_not_rejected_witness :
  init (System.InOther "None") = Ok built.
Proof.
  refine (proj2 (init_other_input_not_rejected build_ok from_mbuild_ok
           identify_ok to_gsd_ok "None" None 1 2.5 false None)
           (Some tt) tt tt (tt, tt) _ _ _ _); reflexivity.
Defined.

Section Lifetime.
Context {Compound Topology Snapshot HoomdForcefield RefValues Units : Type}.
Variable compound_mass : Compound -> R.
Variable _build_system :
  System.t Compound Topology Snapshot HoomdForcefield RefValues Units ->
  outcome (option Compound).
Variable from_mbuild : option Compound -> outcome Topology.
Variable identify_connections : Topology -> outcome Topology.
Variable to_gsd_snapshot :
  option Topology -> bool -> option Units -> outcome (Snapshot * RefValues).
Variable create_hoomd_forcefield :
  Typed.Structure -> R -> bool ->
  outcome (Snapshot * HoomdForcefield * RefValues).
Variable scale_charges : list R -> nat -> list R.
Implicit Types s : System.t Compound Topology Snapshot HoomdForcefield RefValues Units.

Local Abbreviation apply_forcefield :=
  (System.apply_forcefield create_hoomd_forcefield scale_charges).
Local Abbreviation reachable :=
  (System.reachable compound_mass _build_system from_mbuild
     identify_connections to_gsd_snapshot create_hoomd_forcefield
     scale_charges).

Ltac stage_split :=
  match goal with
  | |- context [Typed.remove_hydrogens_step ?l] =>
      destruct (Typed.remove_hydrogens_step l) as [[[[] | ?] ?] ?]
  | |- context [System.neutralize ?sc ?l] =>
      destruct (System.neutralize sc l) as [[[] | ?] ?]
  | |- context [create_hoomd_forcefield ?a ?b ?c] =>
      destruct (create_hoomd_forcefield a b c) as [[[? ?] ?] | ?]
  end; cbn.

(** What a call of [apply_forcefield] does to the three attributes. *)
Lemma apply_forcefield_typed_state forcefield rh sp rc mn r s :
  match apply_forcefield forcefield rh sp rc mn r s with
  | (Ok _, s') =>
      System.typed_system s' <> None /\ System._hoomd_objects s' <> None /\
      System._reference_values s' <> None
  | (Raise _, s') =>
      System._hoomd_objects s' = System._hoomd_objects s /\
      System._reference_values s' = System._reference_values s /\
      (System.typed_system s' = System.typed_system s \/
       System.typed_system s' <> None)
  end.
Proof.
  unfold System.apply_forcefield, System.bind, System.get, System.lift,
    System.modify, System.when, System.on_atoms,
    System.remove_hydrogens_stmt, System.ret.
  cbn.
  destruct (forcefield _ _) as [ts | e]; [| cbn; auto].
  destruct rh, rc, mn; cbn; repeat stage_split; cbn;
    repeat split; auto; discriminate.
Qed.


Lemma set_target_box_typed_state x y z s :
  let s' := snd (System.set_target_box compound_mass x y z s) in
  System.typed_system s' = System.typed_system s /\
  System._hoomd_objects s' = System._hoomd_objects s /\
  System._reference_values s' = System._reference_values s.
Proof.
  unfold System.set_target_box, System.bind, System.get, System.lift,
    System.modify. cbn.
  destruct (BoxSizer.target_box_of _ _ x y z); cbn; auto.
Qed.

(** C3, amended.  At every point of the lifetime of an object,
    [_hoomd_objects] and [_reference_values] are both absent or both
    present, and [typed_system] is present whenever they are;
    [typed_system] can be present while the other two are absent. *)
Theorem typed_state_invariant s :
  reachable s ->
  (System._hoomd_objects s = None /\ System._reference_values s = None)
  \/ (System.typed_system s <> None /\ System._hoomd_objects s <> None
      /\ System._reference_values s <> None).
Proof.
  induction 1 as [molecule ff d rc a bu s Hinit
                 | forcefield rh sp rc mn r s Hs IH
                 | x y z s Hs IH].
  - apply init_attributes in Hinit. left. tauto.
  - pose proof (apply_forcefield_typed_state forcefield rh sp rc mn r s)
      as Hstep.
    destruct (apply_forcefield forcefield rh sp rc mn r s) as [[[] | e] s'];
      cbn [snd]; [right; exact Hstep |].
    destruct Hstep as (Ho & Hr & Ht). rewrite Ho, Hr.
    destruct IH as [IH | (It & Io & Ir)]; [left; exact IH | right].
    repeat split; auto.
    destruct Ht as [-> | Ht]; auto.
  - destruct (set_target_box_typed_state x y z s) as (Ht & Ho & Hr).
    rewrite Ht, Ho, Hr. exact IH.
Qed.

End Lifetime.

Lemma init_empty_list : init (System.InList []) = Ok built.
Proof. reflexivity. Qed.

(** the object left by a call of [apply_forcefield] in which
    [create_hoomd_forcefield] raises *)
Lemma failed_apply_reachable :
  System.reachable (unit_mass 1000) build_ok from_mbuild_ok identify_ok
    to_gsd_ok create_fails scale_same
    (snd (System.apply_forcefield create_fails scale_same
            (ff_const (Typed.mkStructure [])) false true false false 2.5
            built)).
Proof.
  apply System.reach_apply.
  apply System.reach_init with (molecule := System.InList []) (ff := None)
    (d := 1) (rc := 2.5) (a := false) (bu := None).
  reflexivity.
Qed.

Lemma apply_forcefield_failure_leaves_typed_system :
  let s := snd (System.apply_forcefield create_fails scale_same
                  (ff_const (Typed.mkStructure [])) false true false false
                  2.5 built) in
  System.reachable (unit_mass 1000) build_ok from_mbuild_ok identify_ok
    to_gsd_ok create_fails scale_same s /\
  System.typed_system s = Some (Typed.mkStructure []) /\
  System._hoomd_objects s = None /\
  System._reference_values s = None /\
  ~ System.all_or_none s.
Proof.
  split; [exact failed_apply_reachable |].
  cbn. repeat split.
  intros [(H & _) | (_ & H & _)]; [discriminate | now apply H].
Qed.

Lemma typed_state_invariant_witness :
  let s := snd (System.apply_forcefield create_fails scale_same
                  (ff_const (Typed.mkStructure [])) false true false false
                  2.5 built) in
  (System._hoomd_objects s = None /\ System._reference_values s = None)
  \/ (System.typed_system s <> None /\ System._hoomd_objects s <> None
      /\ System._reference_values s <> None).
Proof.
  apply (typed_state_invariant (unit_mass 1000) build_ok from_mbuild_ok
           identify_ok to_gsd_ok create_fails scale_same).
  apply System.reach_apply.
  apply System.reach_init with (molecule := System.InList []) (ff := None)
    (d := 1) (rc := 2.5) (a := false) (bu := None).
  reflexivity.
Defined.

(** ** Hydrogen removal on concrete structures *)

Lemma remove_hydrogens_dihydrogen_loses_mass :
  Typed.remove_hydrogens_step dihydrogen
  = (Ok tt, [], [Printed Typed.removing_msg]) /\
  Typed.total Typed.mass [] <> Typed.total Typed.mass dihydrogen.
Proof.
  split; [reflexivity |].
  unfold Typed.total, dihydrogen. cbn. lra.
Qed.

Lemma remove_hydrogens_conserves_witness :
  exists l',
    Typed.remove_hydrogens_step carbon_hydrogen
    = (Ok tt, l',
       Printed Typed.removing_msg
       :: snd (Typed.identify_hydrogens carbon_hydrogen)) /\
    Typed.total Typed.mass l' = Typed.total Typed.mass carbon_hydrogen /\
    Typed.total Typed.charge l' = Typed.total Typed.charge carbon_hydrogen /\
    Forall (fun a => Typed.atomic_number a <> 1%Z) l'.
Proof.
  apply (TypedFacts.remove_hydrogens_conserves carbon_hydrogen).
  reflexivity.
Defined.

(** ** [apply_forcefield] *)

Lemma Rabs_sum_le (qs : list R) :
  Rabs (fold_right Rplus 0 qs) <= fold_right Rplus 0 (map Rabs qs).
Proof.
  induction qs as [| q qs IH]; cbn.
  - rewrite Rabs_R0. lra.
  - eapply Rle_trans; [apply Rabs_triang |]. lra.
Qed.

Lemma sum_scaled (k : R) (qs : list R) :
  fold_right Rplus 0 (map (fun q => q - Rabs q * k) qs)
  = fold_right Rplus 0 qs - k * fold_right Rplus 0 (map Rabs qs).
Proof. induction qs as [| q qs IH]; cbn; [| rewrite IH]; lra. Qed.

Lemma scale_charges_length (charges : list R) :
  length (Utils.scale_charges charges (length charges)) = length charges.
Proof. unfold Utils.scale_charges. now rewrite length_map. Qed.

Lemma scale_charges_neutral (charges : list R) :
  fold_right Rplus 0 (Utils.scale_charges charges (length charges)) = 0.
Proof.
  unfold Utils.scale_charges. rewrite sum_scaled.
  set (net := fold_right Rplus 0 charges).
  set (magnitude := fold_right Rplus 0 (map Rabs charges)).
  destruct (Req_dec_T magnitude 0) as [Hz | Hnz].
  - pose proof (Rabs_sum_le charges) as Hle. fold net magnitude in Hle.
    rewrite Hz in *. pose proof (Rabs_pos net) as Hp.
    assert (Hn : net = 0).
    { destruct (Req_dec_T net 0) as [E | E]; [exact E |].
      pose proof (Rabs_pos_lt net E). lra. }
    rewrite Hn. lra.
  - field. exact Hnz.
Qed.

Lemma Reqb_eq (x y : R) : Reqb x y = true <-> x = y.
Proof.
  unfold Reqb. destruct (Req_dec_T x y); split; auto; discriminate.
Qed.

Lemma select_nothing (p : Typed.Atom -> bool) (l : list Typed.Atom) :
  Forall (fun a => p a = false) l -> Typed.select p l = [].
Proof.
  unfold Typed.select. generalize 0%nat.
  induction l as [| a r IH]; intros k H; [reflexivity |].
  inversion H as [| ? ? Ha Hr]; subst. cbn. rewrite Ha. now apply IH.
Qed.

(** With an atom of atomic number 1 in the structure, the identified
    hydrogens are the atoms of atomic number 1. *)
Lemma identified_by_element (l : list Typed.Atom) :
  Exists (fun a => Typed.atomic_number a = 1%Z) l ->
  forall h : nat,
    h ∈ fst (Typed.identify_hydrogens l) <->
    exists a, l !! h = Some a /\ Typed.atomic_number a = 1%Z.
Proof.
  intros Hex h. rewrite TypedFacts.identify_hydrogens_order.
  assert (Hiff : h ∈ Typed.select Typed.by_element l <->
                 exists a, l !! h = Some a /\ Typed.atomic_number a = 1%Z).
  { rewrite TypedFacts.elem_of_select. unfold Typed.by_element, Typed.element.
    split; intros (a & Ha & H1); exists a; split; auto;
      now apply Z.eqb_eq. }
  destruct (Typed.select Typed.by_element l) as [| h0 hs] eqn:He;
    [| exact Hiff].
  exfalso. apply Exists_exists in Hex as (a & Hin & Ha).
  apply list_elem_of_lookup in Hin as (i & Hi).
  assert (Hmem : i ∈ Typed.select Typed.by_element l).
  { apply TypedFacts.elem_of_select. exists a. split; [exact Hi |].
    unfold Typed.by_element, Typed.element. now apply Z.eqb_eq. }
  rewrite He in Hmem. inversion Hmem.
Qed.

(** With no atom of atomic number 1 in the structure, the identified
    hydrogens are the atoms of mass 1.008. *)
Lemma identified_by_mass (l : list Typed.Atom) :
  Forall (fun a => Typed.atomic_number a <> 1%Z) l ->
  forall h : nat,
    h ∈ fst (Typed.identify_hydrogens l) <->
    exists a, l !! h = Some a /\ Typed.mass a = 1.008.
Proof.
  intros Hall h. rewrite TypedFacts.identify_hydrogens_order.
  rewrite (select_nothing Typed.by_element l).
  - rewrite TypedFacts.elem_of_select. unfold Typed.by_mass.
    split; intros (a & Ha & H1); exists a; split; auto;
      now apply Reqb_eq.
  - eapply Forall_impl; [exact Hall |].
    intros a Ha. unfold Typed.by_element, Typed.element.
    now apply Z.eqb_neq.
Qed.

Section ApplyForcefield.
Context {Compound Topology Snapshot HoomdForcefield RefValues Units : Type}.
Variable create_hoomd_forcefield :
  Typed.Structure -> R -> bool ->
  outcome (Snapshot * HoomdForcefield * RefValues).
Variable scale_charges : list R -> nat -> list R.
Implicit Types s : System.t Compound Topology Snapshot HoomdForcefield RefValues Units.

Local Abbreviation apply_forcefield :=
  (System.apply_forcefield create_hoomd_forcefield scale_charges).

Ltac run_apply :=
  unfold System.apply_forcefield, System.bind, System.get, System.lift,
    System.modify, System.when, System.on_atoms,
    System.remove_hydrogens_stmt, System.ret; cbn.

(** C8.  With [remove_charges=True], once the force field has typed the
    system and the hydrogen block (if run) has returned the atoms [l1],
    [typed_system] holds those atoms with every charge set to exactly
    zero, whatever [make_charge_neutral] is, and the call returns or
    raises as [create_hoomd_forcefield] does on that structure. *)
Theorem apply_forcefield_remove_charges
    forcefield (rh sp mn : bool) (r : R) s ts l1 ev :
  forcefield (System.system s) (length (System.molecules s) =? 1)%nat
  = Ok ts ->
  (if rh then Typed.remove_hydrogens_step (Typed.atoms ts)
   else (Ok tt, Typed.atoms ts, [])) = (Ok tt, l1, ev) ->
  let zeroed := Typed.mkStructure (map (Typed.set_charge 0) l1) in
  let run := apply_forcefield forcefield rh sp true mn r s in
  System.typed_system (snd run) = Some zeroed /\
  Forall (fun a => Typed.charge a = 0) (Typed.atoms zeroed) /\
  fst run = (do _r <- create_hoomd_forcefield zeroed r sp ; Ok tt).
Proof.
  intros Hff Hh zeroed run.
  split; [| split; [apply TypedFacts.remove_charges_zero |]];
    unfold run; run_apply; rewrite Hff; cbn;
    (destruct rh; cbn; [rewrite Hh | injection Hh as <- <-]); cbn;
    destruct mn; cbn; unfold Typed.remove_charges_step; fold zeroed;
    destruct (create_hoomd_forcefield zeroed r sp) as [[[? ?] ?] | ?];
    reflexivity.
Qed.


(** C9.  With [make_charge_neutral=True] and [remove_charges=False], for
    a [scale_charges] that returns one charge per atom with a zero total:
    atom [i] of [typed_system] receives the [i]-th rescaled charge, mass,
    atomic number and bonds are as they were, and the charges of the
    typed system add up to zero. *)
Theorem apply_forcefield_neutralizes
    forcefield (rh sp : bool) (r : R) s ts l1 ev :
  (forall charges,
      length (scale_charges charges (length charges)) = length charges) ->
  (forall charges,
      fold_right Rplus 0 (scale_charges charges (length charges)) = 0) ->
  forcefield (System.system s) (length (System.molecules s) =? 1)%nat
  = Ok ts ->
  (if rh then Typed.remove_hydrogens_step (Typed.atoms ts)
   else (Ok tt, Typed.atoms ts, [])) = (Ok tt, l1, ev) ->
  let new_charges := scale_charges (map Typed.charge l1) (length l1) in
  let run := apply_forcefield forcefield rh sp false true r s in
  exists l2,
    System.typed_system (snd run) = Some (Typed.mkStructure l2) /\
    map Typed.charge l2 = new_charges /\
    map Typed.mass l2 = map Typed.mass l1 /\
    map Typed.atomic_number l2 = map Typed.atomic_number l1 /\
    map Typed.bond_partners l2 = map Typed.bond_partners l1 /\
    Typed.total Typed.charge l2 = 0.
Proof.
  intros Hlen Hsum Hff Hh new_charges run.
  assert (Hn : length new_charges = length l1).
  { unfold new_charges.
    rewrite <- (length_map Typed.charge l1) at 1. rewrite Hlen.
    apply length_map. }
  exists (zip_with Typed.set_charge new_charges l1).
  destruct (TypedFacts.zip_with_set_charge new_charges l1 Hn)
    as (Hq & Hm & Hz & Hb).
  repeat split; auto.
  - unfold run. run_apply. rewrite Hff. cbn.
    (destruct rh; cbn; [rewrite Hh | injection Hh as <- <-]); cbn;
      unfold System.neutralize; fold new_charges;
      rewrite (TypedFacts.write_charges_all _ _ Hn); cbn;
      destruct (create_hoomd_forcefield _ r sp) as [[[? ?] ?] | ?];
      reflexivity.
  - unfold Typed.total. rewrite Hq. unfold new_charges.
    rewrite <- (length_map Typed.charge l1). apply Hsum.
Qed.

(** C7.  When the structure has an atom of atomic number 1, the
    hydrogens identified are the atoms of atomic number 1; when it has
    none, they are the atoms of mass 1.008; the warning is given only
    when none is identified.  When no atom has atomic number 1 and none
    has mass 1.008, the hydrogen block returns with the atoms unchanged
    after the message and one warning, and [apply_forcefield] with
    [remove_hydrogens=True] has the outcome and leaves the typed state of
    the call with [remove_hydrogens=False], with the message and the
    warning added to the output. *)
Theorem apply_forcefield_no_hydrogens
    forcefield (sp rc mn : bool) (r : R) s ts :
  let l := Typed.atoms ts in
  let identified := fst (Typed.identify_hydrogens l) in
  (Exists (fun a => Typed.atomic_number a = 1%Z) l ->
   forall h : nat,
     h ∈ identified <->
     exists a, l !! h = Some a /\ Typed.atomic_number a = 1%Z) /\
  (Forall (fun a => Typed.atomic_number a <> 1%Z) l ->
   forall h : nat,
     h ∈ identified <->
     exists a, l !! h = Some a /\ Typed.mass a = 1.008) /\
  (identified <> [] -> snd (Typed.identify_hydrogens l) = []) /\
  (forcefield (System.system s) (length (System.molecules s) =? 1)%nat
   = Ok ts ->
   Forall (fun a => Typed.atomic_number a <> 1%Z) l ->
   Forall (fun a => Typed.mass a <> 1.008) l ->
   let run b := apply_forcefield forcefield b sp rc mn r s in
   Typed.remove_hydrogens_step l
   = (Ok tt, l, [Printed Typed.removing_msg; Warned Typed.not_found_msg]) /\
   fst (run true) = fst (run false) /\
   System.typed_system (snd (run true))
   = System.typed_system (snd (run false)) /\
   System._hoomd_objects (snd (run true))
   = System._hoomd_objects (snd (run false)) /\
   System._reference_values (snd (run true))
   = System._reference_values (snd (run false)) /\
   System.events (snd (run true))
   = System.events s
     ++ [Printed Typed.removing_msg; Warned Typed.not_found_msg]
     ++ drop (length (System.events s)) (System.events (snd (run false)))).
Proof.
  intros l identified.
  split; [apply identified_by_element |].
  split; [apply identified_by_mass |].
  split.
  { unfold identified.
    rewrite TypedFacts.identify_hydrogens_order,
      TypedFacts.identify_hydrogens_warns.
    destruct (Typed.select Typed.by_element l); [| reflexivity].
    destruct (Typed.select Typed.by_mass l); [congruence | reflexivity]. }
  intros Hff Hel Hma run.
  assert (He : Typed.select Typed.by_element l = []).
  { apply select_nothing. eapply Forall_impl; [exact Hel |].
    intros a Ha. unfold Typed.by_element, Typed.element.
    now apply Z.eqb_neq. }
  assert (Hm : Typed.select Typed.by_mass l = []).
  { apply select_nothing. eapply Forall_impl; [exact Hma |].
    intros a Ha. unfold Typed.by_mass.
    destruct (Reqb (Typed.mass a) 1.008) eqn:E; [| reflexivity].
    apply Reqb_eq in E. contradiction. }
  pose proof (TypedFacts.remove_hydrogens_step_none _ He Hm) as Hstep.
  split; [exact Hstep |].
  unfold run, l in *. run_apply. rewrite Hff. cbn. rewrite Hstep. cbn.
  destruct ts as [l0]. cbn.
  destruct rc, mn; cbn;
    repeat match goal with
      | |- context [System.neutralize ?sc ?l] =>
          destruct (System.neutralize sc l) as [[[] | ?] ?]; cbn
      | |- context [create_hoomd_forcefield ?a ?b ?c] =>
          destruct (create_hoomd_forcefield a b c) as [[[? ?] ?] | ?]; cbn
      end;
    repeat split; auto;
    rewrite <- ?app_assoc, ?drop_app_length, ?drop_all, ?app_nil_r; cbn;
    try reflexivity.
Qed.

End ApplyForcefield.

(** *** On concrete structures *)

Lemma apply_forcefield_remove_charges_witness :
  System.typed_system
    (snd (System.apply_forcefield create_ok scale_same
            (ff_const (Typed.mkStructure carbon_hydrogen))
            true true true true 2.5 built))
  = Some (Typed.mkStructure [Typed.mkAtom 6 (12.011 + 1.008) 0 []]).
Proof.
  refine (proj1 (apply_forcefield_remove_charges create_ok scale_same
                   (ff_const (Typed.mkStructure carbon_hydrogen))
                   true true true 2.5 built
                   (Typed.mkStructure carbon_hydrogen)
                   [Typed.mkAtom 6 (12.011 + 1.008) (-0.1 + 0.1) []]
                   [Printed Typed.removing_msg] _ _));
    reflexivity.
Defined.

Lemma apply_forcefield_neutralizes_witness :
  exists l2,
    System.typed_system
      (snd (System.apply_forcefield create_ok Utils.scale_charges
              (ff_const (Typed.mkStructure charged))
              false true false true 2.5 built))
    = Some (Typed.mkStructure l2) /\
    map Typed.charge l2
    = Utils.scale_charges (map Typed.charge charged) (length charged) /\
    map Typed.mass l2 = map Typed.mass charged /\
    map Typed.atomic_number l2 = map Typed.atomic_number charged /\
    map Typed.bond_partners l2 = map Typed.bond_partners charged /\
    Typed.total Typed.charge l2 = 0.
Proof.
  refine (apply_forcefield_neutralizes create_ok Utils.scale_charges
            (ff_const (Typed.mkStructure charged)) false true 2.5 built
            (Typed.mkStructure charged) charged []
            scale_charges_length scale_charges_neutral _ _);
    reflexivity.
Defined.

(** The hydrogen of [found_by_mass] is found by its mass and merged into
    the carbon. *)
Lemma remove_hydrogens_found_by_mass :
  Typed.remove_hydrogens_step Fixtures.found_by_mass
  = (Ok tt, [Typed.mkAtom 6 (12.011 + 1.008) (0 + 0) []],
     [Printed Typed.removing_msg]).
Proof.
  unfold Typed.remove_hydrogens_step, Typed.identify_hydrogens,
    Typed.select, Fixtures.found_by_mass, Typed.by_mass.
  cbn. rewrite (Reqb_false 12.011 1.008) by lra.
  rewrite (Reqb_true 1.008 1.008) by reflexivity.
  reflexivity.
Qed.

Lemma apply_forcefield_no_hydrogens_witness :
  1%nat ∈ fst (Typed.identify_hydrogens Fixtures.found_by_mass) /\
  Typed.remove_hydrogens_step charged
  = (Ok tt, charged,
     [Printed Typed.removing_msg; Warned Typed.not_found_msg]).
Proof.
  split.
  - apply (proj1 (proj2 (apply_forcefield_no_hydrogens create_ok scale_same
                    (ff_const (Typed.mkStructure Fixtures.found_by_mass))
                    true false false 2.5 built
                    (Typed.mkStructure Fixtures.found_by_mass)))).
    + repeat constructor; cbn; lia.
    + exists (Typed.mkAtom 0 1.008 0 [0%nat]). split; reflexivity.
  - refine (proj1 (proj2 (proj2 (proj2
              (apply_forcefield_no_hydrogens create_ok scale_same
                 (ff_const (Typed.mkStructure charged))
                 true false false 2.5 built (Typed.mkStructure charged))))
              _ _ _)).
    + reflexivity.
    + repeat constructor; cbn; lia.
    + repeat constructor; cbn; lra.
Defined.

(** * Further properties *)

Import Fixtures.

(** ** Box sizing: the density is matched *)

Module BoxVolume.
Import BoxSizer.

Lemma cube_fills (v : R) :
  0 < v ->
  let L := Rpower v (1 / 3) * cm_to_nm in
  0 < L /\ L * nm_to_cm * (L * nm_to_cm) * (L * nm_to_cm) = v.
Proof.
  intros Hv L. pose proof (exp_pos (1 / 3 * ln v)) as Hc.
  fold (Rpower v (1 / 3)) in Hc.
  pose proof (Rpower_third_cube v Hv) as H3.
  set (c := Rpower v (1 / 3)) in *.
  split; [unfold L, cm_to_nm; apply Rmult_lt_0_compat; lra |].
  replace (L * nm_to_cm) with c by (unfold L, cm_to_nm, nm_to_cm; field).
  rewrite <- H3. ring.
Qed.

Lemma one_fixed_fills (v f : R) :
  0 < v -> 0 < f ->
  let L := sqrt (v / (f * nm_to_cm)) * cm_to_nm in
  0 < L /\ f * nm_to_cm * (L * nm_to_cm) * (L * nm_to_cm) = v.
Proof.
  intros Hv Hf L.
  assert (Hfc : 0 < f * nm_to_cm) by (unfold nm_to_cm; lra).
  assert (Hq : 0 < v / (f * nm_to_cm)) by (apply Rdiv_lt_0_compat; lra).
  pose proof (sqrt_lt_R0 _ Hq) as Hs.
  pose proof (sqrt_sqrt (v / (f * nm_to_cm)) (Rlt_le _ _ Hq)) as Hss.
  set (r := sqrt (v / (f * nm_to_cm))) in *.
  split; [unfold L, cm_to_nm; apply Rmult_lt_0_compat; lra |].
  replace (L * nm_to_cm) with r by (unfold L, cm_to_nm, nm_to_cm; field).
  rewrite Rmult_assoc, Hss. unfold nm_to_cm in *. field. lra.
Qed.

Lemma two_fixed_fills (v f1 f2 : R) :
  0 < v -> 0 < f1 -> 0 < f2 ->
  let L := v / (f1 * nm_to_cm * (f2 * nm_to_cm)) * cm_to_nm in
  0 < L /\ f1 * nm_to_cm * (f2 * nm_to_cm) * (L * nm_to_cm) = v.
Proof.
  intros Hv H1 H2 L.
  assert (Hp : 0 < f1 * nm_to_cm * (f2 * nm_to_cm))
    by (unfold nm_to_cm; nra).
  split.
  - unfold L. apply Rmult_lt_0_compat; [| unfold cm_to_nm; lra].
    apply Rdiv_lt_0_compat; lra.
  - unfold L, cm_to_nm, nm_to_cm in *. field. lra.
Qed.

End BoxVolume.

Section BoxProperties.
Context {Compound Topology Snapshot HoomdForcefield RefValues Units : Type}.
Variable compound_mass : Compound -> R.
Variable create_hoomd_forcefield :
  Typed.Structure -> R -> bool ->
  outcome (Snapshot * HoomdForcefield * RefValues).
Variable scale_charges : list R -> nat -> list R.
Implicit Types s : System.t Compound Topology Snapshot HoomdForcefield RefValues Units.

Local Abbreviation mass := (System.mass compound_mass).
Local Abbreviation set_target_box := (System.set_target_box compound_mass).
Local Abbreviation with_box := System.set_target_box_attr.
Local Abbreviation apply_forcefield :=
  (System.apply_forcefield create_hoomd_forcefield scale_charges).

Ltac fill_box d Hfill Hvd :=
  apply (f_equal (fun t => t * d)) in Hfill;
  rewrite Hvd in Hfill; rewrite <- Hfill; ring.

(** X1.  With positive mass and density, positive constraints and at
    least one edge left free, [set_target_box] returns, [target_box] then
    reads three floats, each of them positive, and the volume of that box
    (edges taken to cm) times the density is the mass in grams. *)
Theorem set_target_box_matches_density s (x y z : option R) :
  0 < mass s -> 0 < System.density s ->
  (forall v, x = Some v -> 0 < v) ->
  (forall v, y = Some v -> 0 < v) ->
  (forall v, z = Some v -> 0 < v) ->
  x = None \/ y = None \/ z = None ->
  exists Lx Ly Lz,
    fst (set_target_box x y z s) = Ok tt /\
    System.target_box (snd (set_target_box x y z s))
    = Some (PyFloat Lx, PyFloat Ly, PyFloat Lz) /\
    0 < Lx /\ 0 < Ly /\ 0 < Lz /\
    Lx * 1e-7 * (Ly * 1e-7) * (Lz * 1e-7) * System.density s
    = mass s * 1.66054e-24.
Proof.
  intros Hm Hd Hx Hy Hz Hfree.
  pose proof (BoxFacts.volume_pos _ _ Hm Hd) as Hv.
  assert (Hd0 : System.density s <> 0) by lra.
  assert (Hvd : BoxSizer.volume (mass s) (System.density s)
                * System.density s = mass s * 1.66054e-24).
  { unfold BoxSizer.volume, amu_to_g. field. lra. }
  assert (Hq : forall f, 0 < f ->
            0 <= BoxSizer.volume (mass s) (System.density s)
                 / (f * nm_to_cm)).
  { intros f Hf. apply Rlt_le. apply Rdiv_lt_0_compat; [exact Hv |].
    unfold nm_to_cm. lra. }
  rewrite set_target_box_run.
  destruct x as [fx |], y as [fy |], z as [fz |];
    try (destruct Hfree as [H | [H | H]]; discriminate);
    try specialize (Hx fx eq_refl); try specialize (Hy fy eq_refl);
    try specialize (Hz fz eq_refl).
  - destruct (BoxFacts.target_box_two (mass s) (System.density s) fx fy
                Hd0 ltac:(lra) ltac:(lra)) as (-> & _).
    destruct (BoxVolume.two_fixed_fills _ fx fy Hv Hx Hy) as (Hp & Hfill).
    eexists _, _, _. split; [reflexivity |]. split; [reflexivity |].
    repeat split; auto.
    fold nm_to_cm. fill_box (System.density s) Hfill Hvd.
  - destruct (BoxFacts.target_box_two (mass s) (System.density s) fx fz
                Hd0 ltac:(lra) ltac:(lra)) as (_ & -> & _).
    destruct (BoxVolume.two_fixed_fills _ fx fz Hv Hx Hz) as (Hp & Hfill).
    eexists _, _, _. split; [reflexivity |]. split; [reflexivity |].
    repeat split; auto.
    fold nm_to_cm. fill_box (System.density s) Hfill Hvd.
  - destruct (BoxFacts.target_box_one (mass s) (System.density s) fx
                Hd0 ltac:(lra) (Hq fx Hx)) as (-> & _).
    destruct (BoxVolume.one_fixed_fills _ fx Hv Hx) as (Hp & Hfill).
    eexists _, _, _. split; [reflexivity |]. split; [reflexivity |].
    repeat split; auto.
    fold nm_to_cm. fill_box (System.density s) Hfill Hvd.
  - destruct (BoxFacts.target_box_two (mass s) (System.density s) fy fz
                Hd0 ltac:(lra) ltac:(lra)) as (_ & _ & ->).
    destruct (BoxVolume.two_fixed_fills _ fy fz Hv Hy Hz) as (Hp & Hfill).
    eexists _, _, _. split; [reflexivity |]. split; [reflexivity |].
    repeat split; auto.
    fold nm_to_cm. fill_box (System.density s) Hfill Hvd.
  - destruct (BoxFacts.target_box_one (mass s) (System.density s) fy
                Hd0 ltac:(lra) (Hq fy Hy)) as (_ & -> & _).
    destruct (BoxVolume.one_fixed_fills _ fy Hv Hy) as (Hp & Hfill).
    eexists _, _, _. split; [reflexivity |]. split; [reflexivity |].
    repeat split; auto.
    fold nm_to_cm. fill_box (System.density s) Hfill Hvd.
  - destruct (BoxFacts.target_box_one (mass s) (System.density s) fz
                Hd0 ltac:(lra) (Hq fz Hz)) as (_ & _ & ->).
    destruct (BoxVolume.one_fixed_fills _ fz Hv Hz) as (Hp & Hfill).
    eexists _, _, _. split; [reflexivity |]. split; [reflexivity |].
    repeat split; auto.
    fold nm_to_cm. fill_box (System.density s) Hfill Hvd.
  - rewrite (BoxFacts.target_box_falsy _ _ None None None) by auto.
    rewrite (BoxFacts.calculate_L_free _ _ Hm Hd). cbn [obind].
    destruct (BoxVolume.cube_fills _ Hv) as (Hp & Hfill).
    eexists _, _, _. split; [reflexivity |]. split; [reflexivity |].
    repeat split; auto.
    fold nm_to_cm. fill_box (System.density s) Hfill Hvd.
Qed.

(** X2.  With all three constraints given and positive, and a density
    that is not zero, [set_target_box] returns and [target_box] then
    reads the constraints as they were given: the box does not depend on
    the mass, and the density is not matched. *)
Theorem set_target_box_three_constraints s (x y z : R) :
  0 < x -> 0 < y -> 0 < z -> System.density s <> 0 ->
  fst (set_target_box (Some x) (Some y) (Some z) s) = Ok tt /\
  System.target_box (snd (set_target_box (Some x) (Some y) (Some z) s))
  = Some (PyFloat x, PyFloat y, PyFloat z) /\
  snd (set_target_box (Some x) (Some y) (Some z) s)
  = with_box (Some (PyFloat x, PyFloat y, PyFloat z)) s.
Proof.
  intros Hx Hy Hz Hd. apply set_target_box_stores.
  unfold BoxSizer.target_box_of.
  rewrite (BoxFacts.truthy_pos x Hx). cbn -[float_div].
  now rewrite float_div_nonzero by exact Hd.
Qed.

(** X3.  A call of [set_target_box] after an earlier call: when the box of
    its arguments can be computed, it returns and [target_box] then reads
    that box, the one a first call with the same arguments leaves, so the
    earlier box plays no part; the call raises only [ZeroDivisionError],
    when the density or a supplied constraint is zero, and then
    [target_box] still reads what the earlier call left. *)
Theorem set_target_box_overwrites s (x y z x' y' z' : option R) :
  let s1 := snd (set_target_box x y z s) in
  let run := set_target_box x' y' z' s1 in
  match BoxSizer.target_box_of (mass s) (System.density s) x' y' z' with
  | Ok box =>
      fst run = Ok tt /\
      System.target_box (snd run) = Some box /\
      System.target_box (snd (set_target_box x' y' z' s)) = Some box
  | Raise e =>
      e = ZeroDivisionError /\
      (System.density s = 0 \/ x' = Some 0 \/ y' = Some 0 \/ z' = Some 0) /\
      run = (Raise e, s1)
  end.
Proof.
  intros s1 run.
  assert (Hs1 : mass s1 = mass s /\ System.density s1 = System.density s).
  { unfold s1. rewrite set_target_box_run.
    now destruct (BoxSizer.target_box_of _ _ x y z). }
  destruct Hs1 as (Hmass & Hden).
  unfold run. rewrite !set_target_box_run, Hmass, Hden.
  destruct (BoxSizer.target_box_of _ _ x' y' z') as [box | e] eqn:Hbox;
    cbn; [auto |].
  destruct (BoxFacts.target_box_raises _ _ _ _ _ _ Hbox) as (He & Hwhy).
  auto.
Qed.

Ltac unfold_apply :=
  unfold System.apply_forcefield, System.bind, System.get, System.lift,
    System.modify, System.when, System.on_atoms,
    System.remove_hydrogens_stmt, System.ret; cbn.

Ltac split_stage :=
  match goal with
  | |- context [Typed.remove_hydrogens_step ?l] =>
      destruct (Typed.remove_hydrogens_step l) as [[[[] | ?] ?] ?] eqn:?
  | |- context [System.neutralize ?sc ?l] =>
      destruct (System.neutralize sc l) as [[[] | ?] ?] eqn:?
  | |- context [create_hoomd_forcefield ?a ?b ?c] =>
      destruct (create_hoomd_forcefield a b c) as [[[? ?] ?] | ?] eqn:?
  end; cbn.

(** What [apply_forcefield] leaves alone. *)
Lemma apply_forcefield_frame forcefield (rh sp rc mn : bool) (r : R) s :
  let s' := snd (apply_forcefield forcefield rh sp rc mn r s) in
  System.system s' = System.system s /\
  System.molecules s' = System.molecules s /\
  System.density s' = System.density s /\
  System.target_box s' = System.target_box s.
Proof.
  unfold_apply.
  destruct (forcefield _ _) as [ts | e]; [| cbn; auto].
  destruct rh, rc, mn; cbn; repeat split_stage; cbn; auto.
Qed.

(** X4.  The box [set_target_box] computes is the same before and after a
    call of [apply_forcefield], whatever that call did to the typed
    system and whether it returned or raised: the mass is read from the
    assembled compound, not from the typed system. *)
Theorem set_target_box_after_apply_forcefield
    forcefield (rh sp rc mn : bool) (r : R) s (x y z : option R) :
  let s1 := snd (apply_forcefield forcefield rh sp rc mn r s) in
  fst (set_target_box x y z s1) = fst (set_target_box x y z s) /\
  System.target_box (snd (set_target_box x y z s1))
  = System.target_box (snd (set_target_box x y z s)).
Proof.
  intros s1.
  destruct (apply_forcefield_frame forcefield rh sp rc mn r s)
    as (Hsys & Hmol & Hden & Hbox).
  fold s1 in Hsys, Hmol, Hden, Hbox.
  assert (Hmass : mass s1 = mass s)
    by (unfold System.mass; now rewrite Hsys, Hmol).
  rewrite !set_target_box_run, Hmass, Hden.
  destruct (BoxSizer.target_box_of _ _ x y z); cbn; auto.
Qed.

End BoxProperties.

(** ** [apply_forcefield]: what the object holds afterwards *)

Section ApplyProperties.
Context {Compound Topology Snapshot HoomdForcefield RefValues Units : Type}.
Variable create_hoomd_forcefield :
  Typed.Structure -> R -> bool ->
  outcome (Snapshot * HoomdForcefield * RefValues).
Variable scale_charges : list R -> nat -> list R.
Implicit Types s : System.t Compound Topology Snapshot HoomdForcefield RefValues Units.

Local Abbreviation apply_forcefield :=
  (System.apply_forcefield create_hoomd_forcefield scale_charges).

Ltac unfold_run :=
  unfold System.apply_forcefield, System.bind, System.get, System.lift,
    System.modify, System.when, System.on_atoms,
    System.remove_hydrogens_stmt, System.ret; cbn.

Ltac split_run :=
  match goal with
  | |- context [Typed.remove_hydrogens_step ?l] =>
      destruct (Typed.remove_hydrogens_step l) as [[[[] | ?] ?] ?] eqn:?
  | |- context [System.neutralize ?sc ?l] =>
      destruct (System.neutralize sc l) as [[[] | ?] ?] eqn:?
  | |- context [create_hoomd_forcefield ?a ?b ?c] =>
      destruct (create_hoomd_forcefield a b c) as [[[? ?] ?] | ?] eqn:?
  end; cbn.

(** X5.  When [apply_forcefield] returns, the snapshot, the force field
    and the reference values the object holds are the ones
    [create_hoomd_forcefield] made from the typed system the object
    holds, with the [r_cut] and scaling flag of the call, and
    [hoomd_snapshot] returns that snapshot. *)
Theorem apply_forcefield_snapshot_in_sync
    forcefield (rh sp rc mn : bool) (r : R) s s' :
  apply_forcefield forcefield rh sp rc mn r s = (Ok tt, s') ->
  exists ts snap hf refs,
    System.typed_system s' = Some ts /\
    create_hoomd_forcefield ts r sp = Ok (snap, hf, refs) /\
    System._hoomd_objects s' = Some (snap, hf) /\
    System._reference_values s' = Some refs /\
    System.hoomd_snapshot s' = Ok snap.
Proof.
  unfold_run.
  destruct (forcefield _ _) as [ts | e]; [| discriminate].
  destruct rh, rc, mn; cbn; repeat split_run;
    intros H; try discriminate; injection H as <-;
    eexists _, _, _, _; (split; [reflexivity |]);
    (split; [eassumption |]); cbn; auto.
Qed.

(** X6.  When [apply_forcefield] raises, the snapshot and the force
    field ([_hoomd_objects]) and the reference values are the ones the
    object held before the call, so [hoomd_snapshot] answers as it did
    before, also when the typed system has been replaced; and when it is
    [forcefield.apply] that raises, the error is passed on as it is and
    the object is unchanged. *)
Theorem apply_forcefield_failure_keeps_snapshot
    forcefield (rh sp rc mn : bool) (r : R) s s' e :
  apply_forcefield forcefield rh sp rc mn r s = (Raise e, s') ->
  System._hoomd_objects s' = System._hoomd_objects s /\
  System.hoomd_snapshot s' = System.hoomd_snapshot s /\
  System._reference_values s' = System._reference_values s /\
  (forall e0,
      forcefield (System.system s)
        (length (System.molecules s) =? 1)%nat = Raise e0 ->
      e = e0 /\ s' = s).
Proof.
  unfold_run. unfold System.hoomd_snapshot.
  destruct (forcefield _ _) as [ts | e1].
  - destruct rh, rc, mn; cbn; repeat split_run;
      intros H; try discriminate; injection H as <- <-; cbn;
      repeat split; auto; intros; discriminate.
  - cbn. intros H. injection H as <- <-.
    split; [reflexivity |]. split; [reflexivity |].
    split; [reflexivity |].
    intros e2 H0. injection H0 as <-. auto.
Qed.

(** The outcome of [apply_forcefield] and, when it returns, the typed
    state it leaves are read off the assembled compound and the number
    of molecules only. *)
Lemma apply_forcefield_reads forcefield (rh sp rc mn : bool) (r : R) s s1 :
  System.system s1 = System.system s ->
  System.molecules s1 = System.molecules s ->
  fst (apply_forcefield forcefield rh sp rc mn r s1)
  = fst (apply_forcefield forcefield rh sp rc mn r s) /\
  (fst (apply_forcefield forcefield rh sp rc mn r s) = Ok tt ->
   System.typed_system (snd (apply_forcefield forcefield rh sp rc mn r s1))
   = System.typed_system (snd (apply_forcefield forcefield rh sp rc mn r s))
   /\
   System._hoomd_objects
     (snd (apply_forcefield forcefield rh sp rc mn r s1))
   = System._hoomd_objects
       (snd (apply_forcefield forcefield rh sp rc mn r s)) /\
   System._reference_values
     (snd (apply_forcefield forcefield rh sp rc mn r s1))
   = System._reference_values
       (snd (apply_forcefield forcefield rh sp rc mn r s))).
Proof.
  intros Hsys Hmol. unfold_run. rewrite Hsys, Hmol.
  destruct (forcefield _ _) as [ts | e]; cbn; [| split; [auto | discriminate]].
  destruct rh, rc, mn; cbn; repeat split_run;
    split; auto; discriminate.
Qed.


(** X7.  A call of [apply_forcefield] on an object that went through an
    earlier call, whether that one returned or raised, has the outcome of
    the same call on the object as it was before, and when it returns it
    leaves the typed system, the snapshot, the force field and the
    reference values of that call: what the earlier call stored is
    discarded. *)
Theorem apply_forcefield_again
    forcefield0 (rh0 sp0 rc0 mn0 : bool) (r0 : R)
    forcefield (rh sp rc mn : bool) (r : R) s :
  let s1 := snd (apply_forcefield forcefield0 rh0 sp0 rc0 mn0 r0 s) in
  fst (apply_forcefield forcefield rh sp rc mn r s1)
  = fst (apply_forcefield forcefield rh sp rc mn r s) /\
  (fst (apply_forcefield forcefield rh sp rc mn r s) = Ok tt ->
   System.typed_system (snd (apply_forcefield forcefield rh sp rc mn r s1))
   = System.typed_system (snd (apply_forcefield forcefield rh sp rc mn r s))
   /\
   System._hoomd_objects
     (snd (apply_forcefield forcefield rh sp rc mn r s1))
   = System._hoomd_objects
       (snd (apply_forcefield forcefield rh sp rc mn r s)) /\
   System._reference_values
     (snd (apply_forcefield forcefield rh sp rc mn r s1))
   = System._reference_values
       (snd (apply_forcefield forcefield rh sp rc mn r s))).
Proof.
  intros s1.
  destruct (apply_forcefield_frame create_hoomd_forcefield scale_charges
              forcefield0 rh0 sp0 rc0 mn0 r0 s) as (Hsys & Hmol & _).
  exact (apply_forcefield_reads forcefield rh sp rc mn r s s1 Hsys Hmol).
Qed.

End ApplyProperties.

(** ** The hydrogen block and the charge loop at their bounds *)

Module TypedBounds.
Import Typed.

Lemma map_alter_same {B} (g : Atom -> B) (f : Atom -> Atom) i (l : list Atom) :
  (forall a, g (f a) = g a) -> map g (alter f i l) = map g l.
Proof.
  intros Hg. revert i.
  induction l as [| a r IH]; intros [| i]; cbn; try reflexivity.
  - now rewrite Hg.
  - now rewrite IH.
Qed.

Lemma map_lookup_bonds (l : list Atom) (h : nat) (bs : list nat) :
  map bond_partners l !! h = Some bs <->
  exists a, l !! h = Some a /\ bond_partners a = bs.
Proof.
  revert h. induction l as [| x r IH]; intros [| h]; cbn.
  - split; [discriminate | intros (a & H & _); discriminate].
  - split; [discriminate | intros (a & H & _); discriminate].
  - split; [intros [= <-]; now exists x | intros (a & [= <-] & <-); auto].
  - apply IH.
Qed.

(** The loop raises [IndexError] as soon as it meets a hydrogen without
    bond partner, whatever it did for the hydrogens before. *)
Lemma merge_hydrogens_unbonded : forall (hs : list nat) (l : list Atom),
  (forall h, h ∈ hs -> (h < length l)%nat) ->
  (exists h, h ∈ hs /\ map bond_partners l !! h = Some []) ->
  fst (merge_hydrogens hs l) = Raise IndexError.
Proof.
  induction hs as [| h0 hs IH]; intros l Hin (h & Hh & Hbp).
  - inversion Hh.
  - cbn [merge_hydrogens].
    destruct (lookup_lt_is_Some_2 l h0 (Hin h0 ltac:(left))) as [a0 Ha0].
    rewrite list_lookup_alter_eq, Ha0. cbn.
    destruct (bond_partners a0) as [| b rest] eqn:Hb0; [reflexivity |].
    apply IH.
    + intros h' Hh'. rewrite !length_alter. apply Hin. now right.
    + exists h. split.
      * apply elem_of_cons in Hh as [-> | Hh]; [| exact Hh].
        apply map_lookup_bonds in Hbp as (a & Ha & Hba). congruence.
      * rewrite !map_alter_same by reflexivity. exact Hbp.
Qed.

Lemma select_lt p (l : list Atom) h : h ∈ select p l -> (h < length l)%nat.
Proof.
  intros H. apply TypedFacts.elem_of_select in H as (a & Ha & _).
  now apply lookup_lt_Some with a.
Qed.

Lemma identified_lt (l : list Atom) h :
  h ∈ fst (identify_hydrogens l) -> (h < length l)%nat.
Proof.
  rewrite TypedFacts.identify_hydrogens_order.
  destruct (select by_element l) eqn:E.
  - apply select_lt.
  - rewrite <- E. apply select_lt.
Qed.

Lemma remove_hydrogens_step_unbonded (l : list Atom) h a :
  h ∈ fst (identify_hydrogens l) ->
  l !! h = Some a -> bond_partners a = [] ->
  fst (fst (remove_hydrogens_step l)) = Raise IndexError.
Proof.
  intros Hh Ha Hb. unfold remove_hydrogens_step.
  pose proof (merge_hydrogens_unbonded (fst (identify_hydrogens l)) l
                (identified_lt l)) as Hrun.
  destruct (identify_hydrogens l) as [hs warned]. cbn in *.
  destruct (merge_hydrogens hs l) as [[[] | e] l'] eqn:Hm; cbn in *.
  - discriminate Hrun. exists h. split; [exact Hh |].
    apply map_lookup_bonds. now exists a.
  - rewrite Hrun; [reflexivity |]. exists h. split; [exact Hh |].
    apply map_lookup_bonds. now exists a.
Qed.


(** *** How many atoms the block removes *)

Lemma length_select_from p k (l : list Atom) :
  length (select_from p k l) = length (List.filter p l).
Proof.
  revert k. induction l as [| a r IH]; intros k; cbn; [reflexivity |].
  destruct (p a); cbn; now rewrite IH.
Qed.

Lemma length_filter_split (p : Atom -> bool) (l : list Atom) :
  (length (List.filter (fun a => negb (p a)) l) + length (List.filter p l)
   = length l)%nat.
Proof.
  induction l as [| a r IH]; cbn; [reflexivity |].
  destruct (p a); cbn; lia.
Qed.

Lemma length_strip (l : list Atom) :
  length (strip (map is_stripped l) l)
  = length (List.filter (fun a => negb (is_stripped a)) l).
Proof.
  unfold strip. generalize (map is_stripped l) at 1 as full. intros full.
  induction l as [| a r IH]; cbn; [reflexivity |].
  destruct (is_stripped a); cbn; now rewrite IH.
Qed.

(** The selection the block works on: one predicate gives the identified
    hydrogens, and it holds of every atom that carries atomic number 1. *)
Lemma identified_selection (l : list Atom) :
  exists P,
    fst (identify_hydrogens l) = select P l /\
    (forall a, a ∈ l -> is_stripped a = true -> P a = true).
Proof.
  rewrite TypedFacts.identify_hydrogens_order.
  destruct (select by_element l) as [| h hs] eqn:He.
  - exists by_mass. split; [reflexivity |].
    intros a Ha Hs.
    pose proof (TypedFacts.select_from_none by_element 0 l He) as Hn.
    rewrite Forall_forall in Hn. specialize (Hn a Ha).
    unfold by_element, element in Hn. unfold is_stripped in Hs. congruence.
  - exists by_element. rewrite He. split; [reflexivity |].
    intros a _ Hs. exact Hs.
Qed.

(** After the loop the atoms of atomic number 1 are the selected ones. *)
Lemma merge_marks_selection (P : Atom -> bool) (l : list Atom) :
  (forall a, a ∈ l -> is_stripped a = true -> P a = true) ->
  forallb (first_partner_heavy l (select P l)) (select P l) = true ->
  exists l',
    merge_hydrogens (select P l) l = (Ok tt, l') /\
    length l' = length l /\
    select is_stripped l' = select P l.
Proof.
  intros HP Hheavy. set (hs := select P l) in *.
  destruct (TypedFacts.merge_hydrogens_sim hs hs l)
    as (l' & Hrun & Hlen & Hsim & _).
  { intros h Hh. split; [assumption |].
    rewrite forallb_forall in Hheavy. apply Hheavy.
    now apply list_elem_of_In. }
  exists l'. repeat split; auto.
  unfold hs, select. apply TypedFacts.select_from_ext.
  apply TypedFacts.map_pointwise; [exact Hlen |].
  intros i a a' Ha Ha'.
  destruct (Hsim i a Ha) as (a'' & Ha'' & _ & _ & Han).
  assert (a'' = a') by congruence. subst a''.
  unfold is_stripped. rewrite Han.
  destruct (bool_decide (i ∈ hs)) eqn:Hin.
  - apply bool_decide_eq_true in Hin.
    apply TypedFacts.elem_of_select in Hin.
    destruct Hin as (x & Hx & HPx). assert (x = a) by congruence.
    subst x. now rewrite HPx.
  - apply bool_decide_eq_false in Hin.
    destruct (P a) eqn:HPa.
    + exfalso. apply Hin. apply TypedFacts.elem_of_select. now exists a.
    + destruct (atomic_number a =? 1)%Z eqn:Hz; [| reflexivity].
      rewrite HP in HPa; [discriminate | | exact Hz].
      now apply list_elem_of_lookup_2 with i.
Qed.

(** X9.  When every identified hydrogen is bonded first to a heavy atom,
    the hydrogen block removes as many atoms as it identified: the atoms
    left and the identified hydrogens add up to the atoms there were. *)
Theorem remove_hydrogens_count (l : list Atom) :
  hydrogens_on_heavy l = true ->
  exists l' ev,
    remove_hydrogens_step l = (Ok tt, l', ev) /\
    (length l' + length (fst (identify_hydrogens l)) = length l)%nat.
Proof.
  unfold hydrogens_on_heavy. intros Hheavy.
  destruct (identified_selection l) as (P & Hid & HP).
  rewrite Hid in Hheavy.
  destruct (merge_marks_selection P l HP Hheavy) as (l' & Hrun & Hlen & Hsel).
  unfold remove_hydrogens_step.
  destruct (identify_hydrogens l) as [hs warned]. cbn in Hid. subst hs.
  rewrite Hrun. eexists _, _. split; [reflexivity |]. cbn [fst].
  rewrite length_strip, <- Hsel. unfold select.
  rewrite length_select_from, <- Hlen.
  apply length_filter_split.
Qed.

(** *** The loop that writes the charges back *)

Lemma write_charges_overrun (cs : list R) : forall (pre l : list Atom),
  (length l < length cs)%nat ->
  write_charges (length pre) cs (pre ++ l)
  = (Raise IndexError, pre ++ zip_with set_charge cs l).
Proof.
  induction cs as [| c cs IH]; intros pre l Hlen; [cbn in Hlen; lia |].
  cbn [write_charges]. destruct l as [| a r].
  - rewrite app_nil_r, Nat.ltb_irrefl. cbn. now rewrite app_nil_r.
  - cbn in Hlen.
    assert (Hlt : (length pre <? length (pre ++ a :: r))%nat = true).
    { apply Nat.ltb_lt. rewrite length_app. cbn. lia. }
    rewrite Hlt.
    replace (alter (set_charge c) (length pre) (pre ++ a :: r))
      with ((pre ++ [set_charge c a]) ++ r).
    2:{ rewrite <- (Nat.add_0_r (length pre)) at 1.
        rewrite alter_app_r. cbn. now rewrite <- app_assoc. }
    replace (S (length pre)) with (length (pre ++ [set_charge c a]))
      by (rewrite length_app; cbn; lia).
    rewrite IH by lia. cbn. now rewrite <- app_assoc.
Qed.

End TypedBounds.

Section ApplyBounds.
Context {Compound Topology Snapshot HoomdForcefield RefValues Units : Type}.
Variable create_hoomd_forcefield :
  Typed.Structure -> R -> bool ->
  outcome (Snapshot * HoomdForcefield * RefValues).
Variable scale_charges : list R -> nat -> list R.
Implicit Types s : System.t Compound Topology Snapshot HoomdForcefield RefValues Units.

Local Abbreviation apply_forcefield :=
  (System.apply_forcefield create_hoomd_forcefield scale_charges).

(** X8.  When an identified hydrogen has no bond partner,
    [apply_forcefield] with [remove_hydrogens=True] raises [IndexError]:
    the typed system stays stored, and the snapshot, the force field and
    the reference values are not touched. *)
Theorem apply_forcefield_unbonded_hydrogen
    forcefield (sp rc mn : bool) (r : R) s ts (h : nat) a :
  forcefield (System.system s) (length (System.molecules s) =? 1)%nat
  = Ok ts ->
  h ∈ fst (Typed.identify_hydrogens (Typed.atoms ts)) ->
  Typed.atoms ts !! h = Some a ->
  Typed.bond_partners a = [] ->
  let run := apply_forcefield forcefield true sp rc mn r s in
  fst run = Raise IndexError /\
  System.typed_system (snd run) <> None /\
  System._hoomd_objects (snd run) = System._hoomd_objects s /\
  System._reference_values (snd run) = System._reference_values s.
Proof.
  intros Hff Hh Ha Hb run.
  pose proof (TypedBounds.remove_hydrogens_step_unbonded _ h a Hh Ha Hb)
    as Hstep.
  unfold run, System.apply_forcefield, System.bind, System.get, System.lift,
    System.modify, System.when, System.on_atoms,
    System.remove_hydrogens_stmt, System.ret. cbn.
  rewrite Hff. cbn.
  destruct (Typed.remove_hydrogens_step (Typed.atoms ts))
    as [[o l'] ev]. cbn in Hstep. subst o. cbn.
  repeat split; auto; discriminate.
Qed.

(** X10.  The loop that writes the rescaled charges back follows the
    number of charges it is given: with no more charges than atoms, the
    first atoms receive them in order and the atoms after them keep
    their charge; with more charges than atoms, every atom receives its
    charge and the loop then raises [IndexError]. *)
Theorem neutralize_bounds (l : list Typed.Atom) :
  let new_charges := scale_charges (map Typed.charge l) (length l) in
  ((length new_charges <= length l)%nat ->
   System.neutralize scale_charges l
   = (Ok tt, zip_with Typed.set_charge new_charges l
             ++ drop (length new_charges) l)) /\
  ((length l < length new_charges)%nat ->
   System.neutralize scale_charges l
   = (Raise IndexError, zip_with Typed.set_charge new_charges l)).
Proof.
  intros new_charges. unfold System.neutralize. fold new_charges. split.
  - intros Hle.
    exact (TypedFacts.write_charges_app new_charges [] l Hle).
  - intros Hlt.
    exact (TypedBounds.write_charges_overrun new_charges [] l Hlt).
Qed.

End ApplyBounds.

(** ** Construction *)

Lemma extend_all_some (lists : list (list System.Mol)) : forall acc,
  System.extend_all acc (map Some lists) = Ok (acc ++ concat lists).
Proof.
  induction lists as [| l r IH]; intros acc; cbn.
  - now rewrite app_nil_r.
  - rewrite IH. now rewrite <- app_assoc.
Qed.

Lemma extend_all_none (items : list (option (list System.Mol))) :
  forall acc, None ∈ items -> System.extend_all acc items = Raise TypeError.
Proof.
  induction items as [| [l |] r IH]; intros acc Hin.
  - inversion Hin.
  - cbn. apply IH. apply elem_of_cons in Hin as [H | H];
      [discriminate | exact H].
  - reflexivity.
Qed.

Lemma sum_n_particles_concat (lists : list (list System.Mol)) :
  fold_right Z.add 0%Z (map System.n_particles (concat lists))
  = fold_right Z.add 0%Z
      (map (fun l => fold_right Z.add 0%Z (map System.n_particles l)) lists).
Proof.
  induction lists as [| l r IH]; cbn; [reflexivity |].
  rewrite map_app, <- IH.
  induction l as [| m l IHl]; cbn; [reflexivity |]. rewrite IHl. lia.
Qed.

Section ConstructionProperties.
Context {Compound Topology Snapshot HoomdForcefield RefValues Units : Type}.
Variable _build_system :
  System.t Compound Topology Snapshot HoomdForcefield RefValues Units ->
  outcome (option Compound).
Variable from_mbuild : option Compound -> outcome Topology.
Variable identify_connections : Topology -> outcome Topology.
Variable to_gsd_snapshot :
  option Topology -> bool -> option Units -> outcome (Snapshot * RefValues).

Local Abbreviation __init__ :=
  (System.__init__ _build_system from_mbuild identify_connections
     to_gsd_snapshot).
Local Abbreviation n_particles :=
  (System.sum_n_particles Compound Topology Snapshot HoomdForcefield
     RefValues Units).

(** X11.  Given a list of lists of molecules, the constructor keeps the
    molecules of all the lists in one sequence, in the order of the lists
    and, within a list, in its order; the object is returned when the
    assembly, the two conversion steps and the snapshot return, and its
    [n_particles] is the sum over the lists of the particle counts of
    their molecules. *)
Theorem init_list_flattens
    (lists : list (list System.Mol)) ff d rc a bu sys top0 top r :
  _build_system
    (System.mkSystem d rc a bu None None None None None (concat lists)
       None None []) = Ok sys ->
  from_mbuild sys = Ok top0 ->
  identify_connections top0 = Ok top ->
  to_gsd_snapshot (Some top) a bu = Ok r ->
  exists s,
    __init__ (System.InList (map Some lists)) ff d rc a bu = Ok s /\
    System.molecules s = concat lists /\
    n_particles s
    = fold_right Z.add 0%Z
        (map (fun l => fold_right Z.add 0%Z (map System.n_particles l))
           lists).
Proof.
  intros Hb Hf Hi Hg.
  exists (System.mkSystem d rc a bu None None None None None (concat lists)
            sys (Some top) []).
  split; [| split; [reflexivity | apply sum_n_particles_concat]].
  unfold System.__init__, System.set_molecules. cbn.
  rewrite (extend_all_some lists []). cbn.
  rewrite Hb. cbn. unfold System._convert_to_gmso, System.set_system. cbn.
  rewrite Hf. cbn. rewrite Hi. cbn.
  unfold System._create_hoomd_snapshot, System.set_gmso_system. cbn.
  rewrite Hg. reflexivity.
Qed.

(** X12.  Given a list with an item that cannot be iterated over, the
    constructor raises [TypeError], whatever the other items are and
    whatever the assembly would do. *)
Theorem init_non_iterable_item
    (items : list (option (list System.Mol))) ff d rc a bu :
  None ∈ items ->
  __init__ (System.InList items) ff d rc a bu = Raise TypeError.
Proof.
  intros Hin. unfold System.__init__. cbn.
  now rewrite (extend_all_none items [] Hin).
Qed.

(** X13.  An object as the constructor returns it has no target box and
    no typed system, and reading [hoomd_snapshot] raises the [ValueError]
    of a snapshot not yet created: the snapshot the constructor computes
    is not kept. *)
Theorem init_then_hoomd_snapshot molecule ff d rc a bu s :
  __init__ molecule ff d rc a bu = Ok s ->
  System.hoomd_snapshot s = Raise (ValueError System.snapshot_msg) /\
  System.target_box s = None /\
  System.typed_system s = None.
Proof.
  intros Hinit.
  destruct (init_attributes _ _ _ _ _ _ _ _ _ _ _ Hinit)
    as (Ht & Ho & _ & Hb).
  repeat split; auto. now apply hoomd_snapshot_unapplied.
Qed.

End ConstructionProperties.

(** ** The further properties on concrete objects *)

Lemma set_target_box_matches_density_witness :
  exists Lx Ly Lz,
    fst (System.set_target_box (unit_mass 1000) (Some 2) None (Some 3)
           (fresh 1)) = Ok tt /\
    System.target_box
      (snd (System.set_target_box (unit_mass 1000) (Some 2) None (Some 3)
              (fresh 1)))
    = Some (PyFloat Lx, PyFloat Ly, PyFloat Lz) /\
    0 < Lx /\ 0 < Ly /\ 0 < Lz /\
    Lx * 1e-7 * (Ly * 1e-7) * (Lz * 1e-7) * System.density (fresh 1)
    = System.mass (unit_mass 1000) (fresh 1) * 1.66054e-24.
Proof.
  apply (set_target_box_matches_density (unit_mass 1000) (fresh 1)
           (Some 2) None (Some 3)).
  - cbn. unfold unit_mass. lra.
  - cbn. lra.
  - intros v [= <-]. lra.
  - intros v H. discriminate H.
  - intros v [= <-]. lra.
  - right. left. reflexivity.
Defined.

Lemma set_target_box_three_constraints_witness :
  System.target_box
    (snd (System.set_target_box (unit_mass 1000) (Some 2) (Some 3) (Some 4)
            (fresh 1)))
  = Some (PyFloat 2, PyFloat 3, PyFloat 4).
Proof.
  refine (proj1 (proj2 (set_target_box_three_constraints (unit_mass 1000)
                          (fresh 1) 2 3 4 _ _ _ _)));
    cbn; lra.
Defined.

Lemma apply_forcefield_snapshot_in_sync_witness :
  let s' := snd (System.apply_forcefield create_ok scale_same
                   (ff_const (Typed.mkStructure carbon_hydrogen))
                   true true false false 2.5 built) in
  exists ts snap hf refs,
    System.typed_system s' = Some ts /\
    create_ok ts 2.5 true = Ok (snap, hf, refs) /\
    System._hoomd_objects s' = Some (snap, hf) /\
    System._reference_values s' = Some refs /\
    System.hoomd_snapshot s' = Ok snap.
Proof.
  apply (apply_forcefield_snapshot_in_sync create_ok scale_same
           (ff_const (Typed.mkStructure carbon_hydrogen))
           true true false false 2.5 built).
  reflexivity.
Defined.

Lemma apply_forcefield_failure_keeps_snapshot_witness :
  let s' := snd (System.apply_forcefield create_fails scale_same
                   (ff_const (Typed.mkStructure carbon_hydrogen))
                   true true false false 2.5 built) in
  System._hoomd_objects s' = System._hoomd_objects built /\
  System.hoomd_snapshot s' = System.hoomd_snapshot built /\
  System._reference_values s' = System._reference_values built.
Proof.
  intros s'.
  pose proof (apply_forcefield_failure_keeps_snapshot create_fails scale_same
                (ff_const (Typed.mkStructure carbon_hydrogen))
                true true false false 2.5 built s'
                (External "create_hoomd_forcefield failed") eq_refl)
    as (H0 & H1 & H2 & _).
  exact (conj H0 (conj H1 H2)).
Defined.

Lemma apply_forcefield_again_witness :
  let s1 := snd (System.apply_forcefield create_ok scale_same
                   (ff_const (Typed.mkStructure carbon_hydrogen))
                   true true false false 2.5 built) in
  System.typed_system
    (snd (System.apply_forcefield create_ok scale_same
            (ff_const (Typed.mkStructure charged))
            false true true false 2.5 s1))
  = System.typed_system
      (snd (System.apply_forcefield create_ok scale_same
              (ff_const (Typed.mkStructure charged))
              false true true false 2.5 built)).
Proof.
  refine (proj1 (proj2 (apply_forcefield_again create_ok scale_same
                   (ff_const (Typed.mkStructure carbon_hydrogen))
                   true true false false 2.5
                   (ff_const (Typed.mkStructure charged))
                   false true true false 2.5 built) _)).
  reflexivity.
Defined.

Lemma apply_forcefield_unbonded_hydrogen_witness :
  fst (System.apply_forcefield create_ok scale_same
         (ff_const (Typed.mkStructure unbonded))
         true true false false 2.5 built)
  = Raise IndexError.
Proof.
  refine (proj1 (apply_forcefield_unbonded_hydrogen create_ok scale_same
                   (ff_const (Typed.mkStructure unbonded))
                   true false false 2.5 built (Typed.mkStructure unbonded)
                   1%nat (Typed.mkAtom 1 1.008 0 []) _ _ _ _));
    try reflexivity.
  cbn. constructor.
Defined.

Lemma remove_hydrogens_count_witness :
  exists l' ev,
    Typed.remove_hydrogens_step carbon_hydrogen = (Ok tt, l', ev) /\
    (length l' + length (fst (Typed.identify_hydrogens carbon_hydrogen))
     = length carbon_hydrogen)%nat.
Proof.
  apply (TypedBounds.remove_hydrogens_count carbon_hydrogen). reflexivity.
Defined.

Lemma neutralize_bounds_witness :
  System.neutralize scale_one charged
  = (Ok tt, [Typed.mkAtom 8 15.999 0 []; Typed.mkAtom 6 12.011 0.5 []]) /\
  fst (System.neutralize scale_three charged) = Raise IndexError.
Proof.
  split.
  - apply (proj1 (neutralize_bounds scale_one charged)). cbn. lia.
  - rewrite (proj2 (neutralize_bounds scale_three charged));
      [reflexivity | cbn; lia].
Defined.

Lemma init_list_flattens_witness :
  exists s,
    init (System.InList (map Some two_trimers)) = Ok s /\
    System.molecules s = concat two_trimers /\
    System.sum_n_particles unit unit unit unit unit unit s
    = fold_right Z.add 0%Z
        (map (fun l => fold_right Z.add 0%Z (map System.n_particles l))
           two_trimers).
Proof.
  apply (init_list_flattens build_ok from_mbuild_ok identify_ok to_gsd_ok
           two_trimers None 1 2.5 false None (Some tt) tt tt (tt, tt));
    reflexivity.
Defined.

Lemma init_non_iterable_item_witness :
  init (System.InList [Some []; None]) = Raise TypeError.
Proof.
  apply (init_non_iterable_item build_ok from_mbuild_ok identify_ok
           to_gsd_ok [Some []; None] None 1 2.5 false None).
  repeat constructor.
Defined.

Lemma init_then_hoomd_snapshot_witness :
  System.hoomd_snapshot built = Raise (ValueError System.snapshot_msg) /\
  System.target_box built = None /\
  System.typed_system built = None.
Proof.
  apply (init_then_hoomd_snapshot build_ok from_mbuild_ok identify_ok
           to_gsd_ok (System.InList []) None 1 2.5 false None built).
  reflexivity.
Defined.
